(** * RF24 [examples_pico/streamingData.cpp]: a shallow embedding

    The example streams [SIZE] payloads of [SIZE] bytes from one nRF24L01
    node to another and lets the user switch the node's role over the serial
    terminal.  The program's globals ([role], [buffer], [counter]) are the
    fields of [state]; every call that leaves the program (console, clock,
    radio driver) is recorded, in order, in the field [out], and every value
    such a call returns is an explicit input of the function that makes it. *)

From Stdlib Require Import ZArith Lia.
From stdpp Require Import base numbers list strings.

Open Scope Z_scope.

(** ** Events: the calls made to the Pico SDK and to the RF24 driver *)

(** [rf24_pa_dbm_e] of RF24.h. *)
Inductive rf24_pa_dbm_e := RF24_PA_MIN | RF24_PA_LOW | RF24_PA_HIGH | RF24_PA_MAX.

(** An argument of a [printf] call, after the format string. *)
Inductive printf_arg :=
| ArgInt (n : Z)           (* %d *)
| ArgChar (c : Z)          (* %c *)
| ArgStr (s : list Z).     (* %s: the characters before the first NUL *)

(** One constructor per external function the example calls; a constructor
    carries the call's arguments and, last, the value the call returned. *)
Inductive event :=
| stdio_init_all
| tud_cdc_connected (r : bool)
| sleep_ms (ms : Z)
| printf (fmt : string) (args : list printf_arg)
| getchar (r : Z)
| getchar_timeout_us (timeout_us : Z) (r : Z)
| to_us_since_boot (r : Z)
| radio_begin (r : bool)
| radio_setPALevel (level : rf24_pa_dbm_e)
| radio_setPayloadSize (size : Z)
| radio_openWritingPipe (address : string)
| radio_openReadingPipe (pipe : Z) (address : string)
| radio_startListening
| radio_stopListening
| radio_printPrettyDetails
| radio_flush_tx
| radio_writeFast (buf : list Z) (len : Z) (r : bool)
| radio_reUseTX
| radio_available (r : bool)
| radio_read (payload : list Z) (len : Z).

(** ** Program state *)

Record state := State {
  role : bool;          (* true = TX node, false = RX node *)
  buffer : list Z;      (* char buffer[SIZE + 1] *)
  counter : Z;          (* uint8_t counter *)
  listening : bool;     (* the transceiver's mode: true after startListening() *)
  out : list event      (* the external calls made so far, oldest first *)
}.

Definition set_role (b : bool) (st : state) : state :=
  State b (buffer st) (counter st) (listening st) (out st).
Definition set_buffer (l : list Z) (st : state) : state :=
  State (role st) l (counter st) (listening st) (out st).
Definition set_counter (c : Z) (st : state) : state :=
  State (role st) (buffer st) c (listening st) (out st).
Definition set_listening (b : bool) (st : state) : state :=
  State (role st) (buffer st) (counter st) b (out st).

Definition emit (e : event) (st : state) : state :=
  State (role st) (buffer st) (counter st) (listening st) (out st ++ [e]).
Definition emit_all (es : list event) (st : state) : state :=
  State (role st) (buffer st) (counter st) (listening st) (out st ++ es).

(** [radio.startListening()] and [radio.stopListening()]: the call and its
    effect on the transceiver's mode. *)
Definition startListening (st : state) : state :=
  set_listening true (emit radio_startListening st).
Definition stopListening (st : state) : state :=
  set_listening false (emit radio_stopListening st).

(** ** Integer conversions *)

Definition uint8_t (z : Z) : Z := z mod 256.
Definition uint64_t (z : Z) : Z := z mod 2 ^ 64.

(** The characters of a C string: what [printf("%s", s)] prints. *)
Fixpoint c_str (s : list Z) : list Z :=
  match s with
  | [] => []
  | c :: s' => if c =? 0 then [] else c :: c_str s'
  end.

(** What the outside world answers during one call of [loop()]. *)
Record tick_input := TickInput {
  tx_ok : nat -> bool;      (* radio.writeFast(): result of the k-th call *)
  rx_ready : bool;          (* radio.available() *)
  rx_payload : nat -> Z;    (* byte k of the payload at the head of the RX FIFO *)
  key : Z;                  (* getchar_timeout_us(): a character or PICO_ERROR_TIMEOUT *)
  t_start : Z;              (* to_us_since_boot(), before the stream *)
  t_end : Z                 (* to_us_since_boot(), after the stream *)
}.

(** What the outside world answers during [setup()]. *)
Record setup_input := SetupInput {
  cdc : nat -> bool;        (* tud_cdc_connected(): result of the k-th poll *)
  begin_ok : bool;          (* radio.begin() *)
  first_char : Z            (* getchar() *)
}.

(** Local variables of the transmit loop; [sends] counts its iterations
    (one [radio.writeFast()] each). *)
Record tx_locals := TxLocals { tx_i : Z; failures : Z; sends : nat }.

(** How [main()] stands when the observation ends. *)
Inductive status :=
| Returned (code : Z)       (* main() returned *)
| Waiting                   (* still in setup(), polling tud_cdc_connected() *)
| Looping.                  (* in the tick loop [while (setup_ok) loop();] *)

Section Program.

(** [#define SIZE 32] "this is the maximum for this example. (minimum is 1)". *)
Variable SIZE : Z.

(** Whether plain [char] is signed on the target (it is not on the RP2040). *)
Variable char_signed : bool.

(** Error code of the Pico SDK (pico/error_codes.h), not part of this
    repository. *)
Variable PICO_ERROR_TIMEOUT : Z.

(** Conversion of an [int] to [char]. *)
Definition to_char (z : Z) : Z :=
  if char_signed then (z + 128) mod 256 - 128 else z mod 256.

(** *** makePayload (lines 167-179) *)

(** [(SIZE - 1) / 2]. *)
Definition mid : Z := (SIZE - 1) ÷ 2.

(** The body of the [for] loop: the character stored at [buffer[j + 1]]. *)
Definition chevron (i j : Z) : Z :=
  let chr := to_char (Z.b2z (j >=? mid + Z.abs (mid - i))) in
  let chr := to_char (Z.lor chr (Z.b2z (j <? mid - Z.abs (mid - i)))) in
  to_char (chr + 48).

(** [buffer[j + 1] = chr + 48;] *)
Definition store_digit (i : Z) (buf : list Z) (j : Z) : list Z :=
  <[Z.to_nat (j + 1) := chevron i j]> buf.

(** [j] is a [uint8_t] that runs over 0 .. SIZE - 2; it does not wrap as
    long as SIZE <= 256. *)
Definition makePayload (i : Z) (buf : list Z) : list Z :=
  let buf := <[0%nat := to_char (i + (if i <? 26 then 65 else 71))]> buf in
  foldl (store_digit i) buf (seqZ 0 (SIZE - 1)).

(** *** The radio driver's read *)

(** Modelled from the spec: [RF24::read] is not under src/.  Section 6:
    "receive(buffer, size) - copy exactly size bytes of the oldest available
    received payload into buffer". *)
Definition RF24_read (payload : nat -> Z) (len : Z) (buf : list Z) : list Z :=
  ((fun k => to_char (payload k)) <$> seq 0 (Z.to_nat len)) ++ drop (Z.to_nat len) buf.

(** *** loop, TX node (lines 105-130) *)

(** One iteration of [while (i < SIZE)]; the boolean tells whether the
    iteration left the loop through [break]. *)
Definition send_body (ok : nat -> bool) (l : tx_locals) (st : state)
  : tx_locals * state * bool :=
  let st := set_buffer (makePayload (tx_i l) (buffer st)) st in
  let r := ok (sends l) in
  let st := emit (radio_writeFast (take (Z.to_nat SIZE) (buffer st)) SIZE r) st in
  let '(l, st) :=
    if negb r
    then (TxLocals (tx_i l) (uint8_t (failures l + 1)) (S (sends l)), emit radio_reUseTX st)
    else (TxLocals (uint8_t (tx_i l + 1)) (failures l) (S (sends l)), st) in
  if failures l >=? 100
  then (l, emit (printf "Too many failures detected. Aborting at payload %c"
                        [ArgChar (default 0 (buffer st !! 0%nat))]) st, true)
  else (l, st, false).

(** The [while] loop; [None] when [fuel] iterations did not finish it. *)
Fixpoint send_while (fuel : nat) (ok : nat -> bool) (l : tx_locals) (st : state)
  : option (tx_locals * state) :=
  if tx_i l <? SIZE then
    match fuel with
    | O => None
    | S fuel' =>
        let '(l', st', stop) := send_body ok l st in
        if stop then Some (l', st') else send_while fuel' ok l' st'
    end
  else Some (l, st).

(** Iterations granted to the transmit loop of one tick. *)
Definition send_fuel : nat := (Z.to_nat SIZE + 100)%nat.

Definition transmit_stream (inp : tick_input) (st : state) : option state :=
  let st := emit radio_flush_tx st in
  let l := TxLocals 0 0 0 in
  let st := emit (to_us_since_boot (t_start inp)) st in
  '(l, st) ← send_while send_fuel (tx_ok inp) l st;
  let st := emit (to_us_since_boot (t_end inp)) st in
  let st := emit (printf "Time to transmit = %d us with %d failures detected"
                         [ArgInt (uint64_t (t_end inp - t_start inp));
                          ArgInt (failures l)]) st in
  Some (emit (sleep_ms 500) st).

(** *** loop, RX node (lines 135-140) *)

Definition receive_poll (inp : tick_input) (st : state) : state :=
  let st := emit (radio_available (rx_ready inp)) st in
  if rx_ready inp then
    let buf := RF24_read (rx_payload inp) SIZE (buffer st) in
    let st := emit (radio_read (take (Z.to_nat SIZE) buf) SIZE) (set_buffer buf st) in
    let st := emit (printf "Received: %s - #d"
                           [ArgStr (c_str (buffer st)); ArgInt (counter st)]) st in
    set_counter (uint8_t (counter st + 1)) st
  else st.

(** *** loop, role change from the serial terminal (lines 143-163) *)

Definition change_role (r : Z) (st : state) : state :=
  let st := emit (getchar_timeout_us 500 r) st in
  let input := to_char r in
  if negb (input =? PICO_ERROR_TIMEOUT) then
    if ((input =? 84) || (input =? 116)) && negb (role st) then
      let st := set_counter 0 (set_role true st) in
      let st := emit (printf "*** CHANGING TO TRANSMIT ROLE -- PRESS 'R' TO SWITCH BACK\n" []) st in
      stopListening st
    else if ((input =? 82) || (input =? 114)) && role st then
      let st := set_role false st in
      let st := emit (printf "*** CHANGING TO RECEIVE ROLE -- PRESS 'T' TO SWITCH BACK\n" []) st in
      startListening st
    else st
  else st.

(** *** loop (lines 100-164) *)

Definition loop (inp : tick_input) (st : state) : option state :=
  st ← (if role st then transmit_stream inp st else Some (receive_poll inp st));
  Some (change_role (key inp) st).

(** *** setup (lines 33-97) *)

(** [while (!tud_cdc_connected()) sleep_ms(10);] from the [k]-th poll on;
    the boolean tells whether the port got connected within [fuel] polls. *)
Fixpoint wait_cdc (fuel : nat) (connected : nat -> bool) (k : nat) (st : state)
  : bool * state :=
  match fuel with
  | O => (false, st)
  | S fuel' =>
      if connected k then (true, emit (tud_cdc_connected true) st)
      else wait_cdc fuel' connected (S k)
             (emit_all [tud_cdc_connected false; sleep_ms 10] st)
  end.

(** [None] when the serial port is still not connected after [fuel] polls,
    otherwise the value [setup()] returns. *)
Definition setup (fuel : nat) (si : setup_input) (st : state) : option bool * state :=
  let st := set_buffer (<[Z.to_nat SIZE := 0]> (buffer st)) st in
  let address (n : bool) : string := if n then "2Node" else "1Node" in
  let '(connected, st) := wait_cdc fuel (cdc si) 0 st in
  if negb connected then (None, st) else
  let st := emit (radio_begin (begin_ok si)) st in
  if negb (begin_ok si) then
    (Some false, emit (printf "radio hardware is not responding!!\n" []) st)
  else
    let st := emit (printf "RF24/examples_pico/streamingData" []) st in
    let st := emit (printf "Which radio is this? Enter '0' or '1'. Defaults to '0' " []) st in
    let st := emit (getchar (first_char si)) st in
    let input := to_char (first_char si) in
    let radioNumber := input =? 49 in
    let st := emit (printf "radioNumber = %d\n" [ArgInt (Z.b2z radioNumber)]) st in
    let st := emit (radio_setPALevel RF24_PA_LOW) st in
    let st := emit (radio_setPayloadSize SIZE) st in
    let st := emit (radio_openWritingPipe (address radioNumber)) st in
    let st := emit (radio_openReadingPipe 1 (address (negb radioNumber))) st in
    let st := if role st then stopListening st else startListening st in
    let st := emit radio_printPrettyDetails st in
    let st := emit (printf "*** PRESS 'T' to begin transmitting to the other node\n" []) st in
    (Some true, st).

(** *** main (lines 181-190) *)

(** [n] iterations of [while (setup_ok) loop();], the first of them being
    tick [k]. *)
Fixpoint run_loop (n : nat) (inp : nat -> tick_input) (k : nat) (st : state)
  : option state :=
  match n with
  | O => Some st
  | S n' => st' ← loop (inp k) st; run_loop n' inp (S k) st'
  end.

(** The globals when the program starts: static storage is zeroed, [role]
    is initialised to [false]. *)
Definition boot : state :=
  State false (replicate (Z.to_nat (SIZE + 1)) 0) 0 false [].

(** [main()] observed for at most [fuel] polls of the serial port and then
    [fuel] ticks. *)
Definition main (fuel : nat) (si : setup_input) (inp : nat -> tick_input)
  : option (status * state) :=
  let st := emit stdio_init_all boot in
  match setup fuel si st with
  | (None, st) => Some (Waiting, st)
  | (Some false, st) => Some (Returned 0, st)
  | (Some true, st) => st' ← run_loop fuel inp 0 st; Some (Looping, st')
  end.

End Program.

(** ** Vocabulary of the properties *)

(** The call that samples the serial terminal for a command. *)
Definition is_sample (e : event) : bool :=
  match e with getchar_timeout_us _ _ => true | _ => false end.

(** The calls into the radio driver that the role's work makes. *)
Definition is_radio_work (e : event) : bool :=
  match e with
  | radio_flush_tx | radio_writeFast _ _ _ | radio_reUseTX
  | radio_available _ | radio_read _ _ => true
  | _ => false
  end.

(** The calls that only [loop()] makes. *)
Definition is_tick_event (e : event) : bool :=
  match e with
  | to_us_since_boot _ => true
  | _ => is_sample e || is_radio_work e
  end.

Definition no_string (args : list printf_arg) : bool :=
  forallb (fun a => match a with ArgStr _ => false | _ => true end) args.

(** The calls of a transmit cycle. *)
Definition is_stream_event (e : event) : bool :=
  match e with
  | radio_flush_tx | radio_writeFast _ _ _ | radio_reUseTX
  | to_us_since_boot _ | sleep_ms _ => true
  | printf _ args => no_string args
  | _ => false
  end.

(** Every string handed to [printf] has at most [n] characters. *)
Definition prints_at_most (n : nat) (e : event) : Prop :=
  match e with
  | printf _ args =>
      Forall (fun a => match a with ArgStr s => (length s <= n)%nat | _ => True end) args
  | _ => True
  end.

(** The calls made before the first tick, by [main()] and [setup()]. *)
Definition is_setup_event (e : event) : bool :=
  match e with
  | printf _ args => no_string args
  | _ => negb (is_tick_event e)
  end.

(** Every string handed to [printf] has exactly [n] characters. *)
Definition prints_exactly (n : nat) (e : event) : Prop :=
  match e with
  | printf _ args =>
      Forall (fun a => match a with ArgStr s => length s = n | _ => True end) args
  | _ => True
  end.

(** The buffer has its [SIZE + 1] cells, the last of them NUL. *)
Definition terminated (SIZE : Z) (buf : list Z) : Prop :=
  length buf = Z.to_nat (SIZE + 1) /\ buf !! Z.to_nat SIZE = Some 0.

(** Microseconds in [ms] milliseconds. *)
Definition us_of_ms (ms : Z) : Z := 1000 * ms.

(** The tick in the order sections 2 and 5 of the specification give:
    "command sampling -> role-conditional work".  The properties compare it
    with [loop]. *)
Definition tick_command_first (SIZE : Z) (char_signed : bool) (PICO_ERROR_TIMEOUT : Z)
    (inp : tick_input) (st : state) : option state :=
  let st := change_role char_signed PICO_ERROR_TIMEOUT (key inp) st in
  if role st then transmit_stream SIZE char_signed inp st
  else Some (receive_poll SIZE char_signed inp st).

(** ** Reading a trace *)

(** The payloads handed to [radio.writeFast()], each with the call's result. *)
Definition writes (es : list event) : list (list Z * bool) :=
  omap (fun e => match e with
                 | radio_writeFast buf _ r => Some (buf, r)
                 | _ => None
                 end) es.

(** The payloads of the sends that succeeded. *)
Definition sent (es : list event) : list (list Z) :=
  (filter (fun w => w.2 = true) (writes es)).*1.

(** The number of [radio.reUseTX()] calls. *)
Definition reuses (es : list event) : nat :=
  length (omap (fun e => match e with radio_reUseTX => Some tt | _ => None end) es).

(** The number of [radio.read()] calls. *)
Definition reads (es : list event) : nat :=
  length (omap (fun e => match e with radio_read _ _ => Some tt | _ => None end) es).

(** The results of the calls that sampled the terminal. *)
Definition keys_read (es : list event) : list Z :=
  omap (fun e => match e with getchar_timeout_us _ r => Some r | _ => None end) es.

(** The addresses given to [radio.openWritingPipe()]. *)
Definition writing_pipes (es : list event) : list string :=
  omap (fun e => match e with radio_openWritingPipe a => Some a | _ => None end) es.

(** The pipes and addresses given to [radio.openReadingPipe()]. *)
Definition reading_pipes (es : list event) : list (Z * string) :=
  omap (fun e => match e with radio_openReadingPipe n a => Some (n, a) | _ => None end) es.

(** The transmitter's calls into the driver, and the receiver's. *)
Definition is_tx_call (e : event) : bool :=
  match e with
  | radio_flush_tx | radio_writeFast _ _ _ | radio_reUseTX => true
  | _ => false
  end.
Definition is_rx_call (e : event) : bool :=
  match e with radio_available _ | radio_read _ _ => true | _ => false end.
Definition is_sleep (e : event) : bool :=
  match e with sleep_ms _ => true | _ => false end.

(** How many of the sends [s], [s + 1], ..., [s + n - 1] succeed. *)
Fixpoint successes (ok : nat -> bool) (s n : nat) : nat :=
  match n with
  | O => O
  | S n' => ((if ok s then 1 else 0) + successes ok (S s) n')%nat
  end.

(** How many of the ticks [k], ..., [k + n - 1] find a payload waiting. *)
Fixpoint arrivals (inp : nat -> tick_input) (k n : nat) : nat :=
  match n with
  | O => O
  | S n' => ((if rx_ready (inp k) then 1 else 0) + arrivals inp (S k) n')%nat
  end.

(** The transceiver listens exactly when the node is a receiver, the counter
    of a transmitter is 0, and the counter fits in 8 bits. *)
Definition coherent (st : state) : Prop :=
  listening st = negb (role st)
  /\ (role st = true -> counter st = 0)
  /\ 0 <= counter st < 256.

(** The calls of the wait for the serial port. *)
Definition is_cdc_wait (e : event) : bool :=
  match e with tud_cdc_connected _ | sleep_ms _ => true | _ => false end.

(** [n] iterations of the body of the transmit loop in a row, without the
    tests of the loop. *)
Fixpoint send_steps (SIZE : Z) (char_signed : bool) (n : nat) (ok : nat -> bool)
    (l : tx_locals) (st : state) : tx_locals * state :=
  match n with
  | O => (l, st)
  | S n' =>
      let '(l1, st1, _) := send_body SIZE char_signed ok l st in
      send_steps SIZE char_signed n' ok l1 st1
  end.

(** * Properties *)

(** ** Conversions *)

Lemma to_char_small (char_signed : bool) (z : Z) :
  0 <= z < 128 -> to_char char_signed z = z.
Proof.
  intros Hz. unfold to_char. destruct char_signed.
  - rewrite Z.mod_small; lia.
  - apply Z.mod_small. lia.
Qed.

Lemma to_char_b2z (char_signed : bool) (b : bool) :
  to_char char_signed (Z.b2z b) = Z.b2z b.
Proof. apply to_char_small. destruct b; simpl; lia. Qed.

Lemma lor_b2z (a b : bool) : Z.lor (Z.b2z a) (Z.b2z b) = Z.b2z (a || b).
Proof. destruct a, b; reflexivity. Qed.

Lemma mid_div (SIZE : Z) : 1 <= SIZE -> mid SIZE = (SIZE - 1) / 2.
Proof. intros H. unfold mid. apply Z.quot_div_nonneg; lia. Qed.

(** ** makePayload *)

Section PayloadFacts.

Variable SIZE : Z.
Variable char_signed : bool.

Local Abbreviation chevron := (chevron SIZE char_signed).
Local Abbreviation store_digit := (store_digit SIZE char_signed).
Local Abbreviation makePayload := (makePayload SIZE char_signed).

Lemma chevron_digit (i j : Z) :
  chevron i j =
  Z.lor (Z.b2z (j >=? mid SIZE + Z.abs (mid SIZE - i)))
        (Z.b2z (j <? mid SIZE - Z.abs (mid SIZE - i))) + 48.
Proof.
  unfold chevron. cbv zeta.
  rewrite to_char_b2z, lor_b2z, to_char_b2z.
  apply to_char_small.
  destruct (_ || _); simpl; lia.
Qed.

Lemma chevron_range (i j : Z) : 48 <= chevron i j <= 49.
Proof.
  rewrite chevron_digit, lor_b2z. destruct (_ || _); simpl; lia.
Qed.

Lemma fill_length (i : Z) (js : list Z) (b : list Z) :
  length (foldl (store_digit i) b js) = length b.
Proof.
  revert b. induction js as [|j js IH]; intros b; simpl; [done|].
  rewrite IH. apply length_insert.
Qed.

(** A cell no iteration addresses keeps its content. *)
Lemma fill_lookup_other (i : Z) (js : list Z) (b : list Z) (k : nat) :
  (forall j, j ∈ js -> Z.to_nat (j + 1) <> k) ->
  foldl (store_digit i) b js !! k = b !! k.
Proof.
  revert b. induction js as [|j js IH]; intros b Hk; simpl; [done|].
  rewrite IH.
  - apply list_lookup_insert_ne. apply Hk. left.
  - intros j' Hj'. apply Hk. by right.
Qed.

(** The cell iteration [j] addresses holds that iteration's digit: the
    iterations address pairwise different cells. *)
Lemma fill_lookup (i : Z) (js : list Z) (b : list Z) (j : Z) :
  (forall x, x ∈ js -> 0 <= x) -> j ∈ js ->
  (Z.to_nat (j + 1) < length b)%nat ->
  foldl (store_digit i) b js !! Z.to_nat (j + 1) = Some (chevron i j).
Proof.
  intros Hpos. induction js as [|x js IH] using rev_ind; intros Hj Hlen.
  - by apply elem_of_nil in Hj.
  - rewrite foldl_snoc. unfold store_digit at 1.
    assert (0 <= j) by (by apply Hpos).
    assert (0 <= x) by (apply Hpos, elem_of_app; right; by apply list_elem_of_singleton).
    apply elem_of_app in Hj as [Hj|Hj].
    + destruct (decide (x = j)) as [->|Hne].
      * apply list_lookup_insert_eq. by rewrite fill_length.
      * rewrite list_lookup_insert_ne by lia.
        apply IH; [|done..].
        intros y Hy. apply Hpos, elem_of_app. by left.
    + apply list_elem_of_singleton in Hj as ->.
      apply list_lookup_insert_eq. by rewrite fill_length.
Qed.

Lemma makePayload_length (i : Z) (buf : list Z) :
  length (makePayload i buf) = length buf.
Proof. unfold makePayload. rewrite fill_length. apply length_insert. Qed.

Lemma makePayload_marker (i : Z) (buf : list Z) :
  (0 < length buf)%nat ->
  makePayload i buf !! 0%nat =
  Some (to_char char_signed (i + (if i <? 26 then 65 else 71))).
Proof.
  intros Hlen. unfold makePayload. rewrite fill_lookup_other.
  - by apply list_lookup_insert_eq.
  - intros j Hj. apply elem_of_seqZ in Hj. lia.
Qed.

Lemma makePayload_digit (i j : Z) (buf : list Z) :
  0 <= j < SIZE - 1 -> (Z.to_nat (j + 1) < length buf)%nat ->
  makePayload i buf !! Z.to_nat (j + 1) = Some (chevron i j).
Proof.
  intros Hj Hlen. unfold makePayload. apply fill_lookup.
  - intros x Hx. apply elem_of_seqZ in Hx. lia.
  - apply elem_of_seqZ. lia.
  - by rewrite length_insert.
Qed.

(** Cells from [SIZE] on are not written. *)
Lemma makePayload_beyond (i : Z) (buf : list Z) (k : nat) :
  1 <= SIZE -> (Z.to_nat SIZE <= k)%nat ->
  makePayload i buf !! k = buf !! k.
Proof.
  intros HS Hk. unfold makePayload. rewrite fill_lookup_other.
  - apply list_lookup_insert_ne. lia.
  - intros j Hj. apply elem_of_seqZ in Hj. lia.
Qed.

End PayloadFacts.

(** C1. For every stream position [i] in [0, SIZE) and offset [j] in
    [0, SIZE - 1), with [m = (SIZE - 1) / 2] and [d = |m - i|], the payload's
    byte [j + 1] is [(high | low) + '0'] with [high = (j >= m + d)] and
    [low = (j < m - d)]: the digit '1' (49) outside the band [m - d, m + d)
    and the digit '0' (48) inside it. *)
Theorem makePayload_chevron (SIZE : Z) (char_signed : bool)
    (buf : list Z) (i j : Z) :
  1 <= SIZE <= 32 -> length buf = Z.to_nat (SIZE + 1) ->
  0 <= i < SIZE -> 0 <= j < SIZE - 1 ->
  let m := (SIZE - 1) / 2 in
  let d := Z.abs (m - i) in
  let high := Z.b2z (j >=? m + d) in
  let low := Z.b2z (j <? m - d) in
  makePayload SIZE char_signed i buf !! Z.to_nat (j + 1) = Some (Z.lor high low + 48)
  /\ (Z.lor high low + 48 = 49 <-> j >= m + d \/ j < m - d)
  /\ (Z.lor high low + 48 = 48 <-> m - d <= j < m + d).
Proof.
  intros HS Hlen Hi Hj m d high low. split.
  - rewrite makePayload_digit by lia.
    rewrite chevron_digit, mid_div by lia. reflexivity.
  - subst high low. rewrite lor_b2z.
    destruct (Z.geb_spec j (m + d)), (Z.ltb_spec j (m - d)); simpl; lia.
Qed.

Lemma makePayload_chevron_witness :
  makePayload 32 false 3 (replicate 33 0) !! 2%nat = Some 49
  /\ makePayload 32 false 3 (replicate 33 0) !! 6%nat = Some 48.
Proof.
  split.
  - exact (proj1 (makePayload_chevron 32 false (replicate 33 0) 3 1
                    ltac:(lia) ltac:(reflexivity) ltac:(lia) ltac:(lia))).
  - exact (proj1 (makePayload_chevron 32 false (replicate 33 0) 3 5
                    ltac:(lia) ltac:(reflexivity) ltac:(lia) ltac:(lia))).
Defined.

(** C3. With SIZE at most 32, byte 0 of the payload of stream position [i]
    in [0, SIZE) is ['A' + i] (65 + i) when [i < 26] and ['G' + i] (71 + i)
    otherwise, and two positions in range with the same byte 0 are equal. *)
Theorem makePayload_marker_injective (SIZE : Z) (char_signed : bool) :
  1 <= SIZE <= 32 ->
  (forall i buf, 0 <= i < SIZE -> length buf = Z.to_nat (SIZE + 1) ->
     makePayload SIZE char_signed i buf !! 0%nat
     = Some (if i <? 26 then 65 + i else 71 + i))
  /\ (forall i1 i2 buf1 buf2,
        0 <= i1 < SIZE -> 0 <= i2 < SIZE ->
        length buf1 = Z.to_nat (SIZE + 1) -> length buf2 = Z.to_nat (SIZE + 1) ->
        makePayload SIZE char_signed i1 buf1 !! 0%nat
        = makePayload SIZE char_signed i2 buf2 !! 0%nat ->
        i1 = i2).
Proof.
  intros HS.
  assert (Hbyte : forall i buf, 0 <= i < SIZE -> length buf = Z.to_nat (SIZE + 1) ->
            makePayload SIZE char_signed i buf !! 0%nat
            = Some (if i <? 26 then 65 + i else 71 + i)).
  { intros i buf Hi Hlen. rewrite makePayload_marker by lia.
    rewrite to_char_small by (destruct (i <? 26); lia).
    f_equal. destruct (i <? 26); lia. }
  split; [exact Hbyte|].
  intros i1 i2 buf1 buf2 H1 H2 Hl1 Hl2.
  rewrite !Hbyte by done. intros [= Heq].
  destruct (Z.ltb_spec i1 26), (Z.ltb_spec i2 26); lia.
Qed.

Lemma makePayload_marker_injective_witness :
  makePayload 32 false 0 (replicate 33 0) !! 0%nat = Some 65
  /\ makePayload 32 false 31 (replicate 33 0) !! 0%nat = Some 102.
Proof.
  pose proof (proj1 (makePayload_marker_injective 32 false ltac:(lia))) as H.
  split.
  - exact (H 0 (replicate 33 0) ltac:(lia) ltac:(reflexivity)).
  - exact (H 31 (replicate 33 0) ltac:(lia) ltac:(reflexivity)).
Defined.

(** ** The transmit loop *)

Section SendLoop.

Variable SIZE : Z.
Variable char_signed : bool.
Hypothesis SIZE_range : 1 <= SIZE <= 32.

(** One iteration, started below both bounds: a successful send moves [i]
    on, a failed one counts a failure, and the iteration breaks out exactly
    when the failures reach 100. *)
Lemma send_body_step (ok : nat -> bool) (l : tx_locals) (st : state) :
  0 <= tx_i l < SIZE -> 0 <= failures l < 100 ->
  exists l' st' stop,
    send_body SIZE char_signed ok l st = (l', st', stop)
    /\ sends l' = S (sends l)
    /\ (if ok (sends l)
        then tx_i l' = tx_i l + 1 /\ failures l' = failures l
        else tx_i l' = tx_i l /\ failures l' = failures l + 1)
    /\ (stop = true <-> failures l' = 100).
Proof.
  intros Hi Hf. unfold send_body. cbv zeta.
  destruct (ok (sends l)); cbn [negb tx_i failures sends].
  - destruct (Z.geb_spec (failures l) 100); [lia|].
    eexists _, _, _. split; [reflexivity|]. cbn [tx_i failures sends].
    unfold uint8_t. rewrite Z.mod_small by lia. repeat split; lia || discriminate.
  - unfold uint8_t. rewrite Z.mod_small by lia.
    destruct (Z.geb_spec (failures l + 1) 100).
    + eexists _, _, _. split; [reflexivity|]. cbn [tx_i failures sends].
      repeat split; lia || done.
    + eexists _, _, _. split; [reflexivity|]. cbn [tx_i failures sends].
      repeat split; lia || discriminate.
Qed.

Lemma send_while_done (fuel : nat) (ok : nat -> bool) (l : tx_locals) (st : state) :
  SIZE <= tx_i l -> send_while SIZE char_signed fuel ok l st = Some (l, st).
Proof.
  intros H. destruct fuel; simpl; destruct (Z.ltb_spec (tx_i l) SIZE); done || lia.
Qed.

(** The loop leaves after exactly [n] iterations, [n] below the distance of
    [(i, failures)] from [(SIZE, 100)]. *)
Lemma send_while_exits (ok : nat -> bool) (m : nat) :
  forall (l : tx_locals) (st : state),
    0 <= tx_i l <= SIZE -> 0 <= failures l < 100 ->
    (Z.to_nat (SIZE - tx_i l) + Z.to_nat (100 - failures l) <= m + 1)%nat ->
    exists (n : nat) l' st',
      (n <= m)%nat
      /\ (forall fuel, (n <= fuel)%nat ->
            send_while SIZE char_signed fuel ok l st = Some (l', st'))
      /\ (forall fuel, (fuel < n)%nat ->
            send_while SIZE char_signed fuel ok l st = None)
      /\ sends l' = (sends l + n)%nat
      /\ Z.of_nat n = (tx_i l' - tx_i l) + (failures l' - failures l)
      /\ (tx_i l' = SIZE /\ 0 <= failures l' < 100
          \/ failures l' = 100 /\ 0 <= tx_i l' < SIZE).
Proof.
  assert (Hdone : forall l st, tx_i l = SIZE -> 0 <= failures l < 100 ->
            forall m', exists (n : nat) l' st',
              (n <= m')%nat
              /\ (forall fuel, (n <= fuel)%nat ->
                    send_while SIZE char_signed fuel ok l st = Some (l', st'))
              /\ (forall fuel, (fuel < n)%nat ->
                    send_while SIZE char_signed fuel ok l st = None)
              /\ sends l' = (sends l + n)%nat
              /\ Z.of_nat n = (tx_i l' - tx_i l) + (failures l' - failures l)
              /\ (tx_i l' = SIZE /\ 0 <= failures l' < 100
                  \/ failures l' = 100 /\ 0 <= tx_i l' < SIZE)).
  { intros l st Heq Hf m'. exists 0%nat, l, st.
    split; [lia|]. split; [intros; apply send_while_done; lia|].
    split; [intros; lia|]. split; [lia|]. split; [lia|]. left. lia. }
  induction m as [|m IH]; intros l st Hi Hf Hm.
  - apply Hdone; lia.
  - destruct (decide (tx_i l = SIZE)) as [Heq|Hne]; [by apply Hdone|].
    destruct (send_body_step ok l st) as (l1 & st1 & stop & Hbody & Hs & Hstep & Hstop);
      [lia..|].
    assert (Hlt : (tx_i l <? SIZE) = true) by (apply Z.ltb_lt; lia).
    destruct stop.
    + (* the iteration breaks out *)
      assert (failures l1 = 100) by (by apply Hstop).
      exists 1%nat, l1, st1.
      split; [lia|]. split.
      { intros fuel Hfuel. destruct fuel; [lia|]. simpl. by rewrite Hlt, Hbody. }
      split.
      { intros fuel Hfuel. assert (fuel = 0%nat) as -> by lia. simpl. by rewrite Hlt. }
      split; [lia|].
      split; [destruct (ok (sends l)); lia|].
      right. destruct (ok (sends l)); lia.
    + assert (failures l1 <> 100) by (intros Heq; by apply Hstop in Heq).
      destruct (IH l1 st1) as (n & l' & st' & Hn & Hsome & Hnone & Hsends & Hcount & Hend).
      { destruct (ok (sends l)); lia. }
      { destruct (ok (sends l)); lia. }
      { destruct (ok (sends l)); lia. }
      exists (S n), l', st'.
      split; [lia|]. split.
      { intros fuel Hfuel. destruct fuel; [lia|]. simpl. rewrite Hlt, Hbody.
        apply Hsome. lia. }
      split.
      { intros fuel Hfuel. destruct fuel; simpl; rewrite Hlt; [done|].
        rewrite Hbody. apply Hnone. lia. }
      split; [lia|].
      split; [destruct (ok (sends l)); lia|].
      exact Hend.
Qed.

(** What the loop returns is what its body gives when run once per
    iteration: the position has advanced by the successes among the sends
    made, and before each iteration both tests of the loop let it go on. *)
Lemma send_while_steps (ok : nat -> bool) (fuel : nat) :
  forall (l l' : tx_locals) (st st' : state),
    0 <= tx_i l -> 0 <= failures l < 100 ->
    send_while SIZE char_signed fuel ok l st = Some (l', st') ->
    exists n : nat,
      sends l' = (sends l + n)%nat
      /\ (l', st') = send_steps SIZE char_signed n ok l st
      /\ tx_i l' = tx_i l + Z.of_nat (successes ok (sends l) n)
      /\ (forall k, (k < n)%nat ->
            0 <= tx_i (send_steps SIZE char_signed k ok l st).1 < SIZE
            /\ 0 <= failures (send_steps SIZE char_signed k ok l st).1 < 100).
Proof.
  induction fuel as [|fuel IH]; intros l l' st st' Hi Hf; simpl;
    destruct (Z.ltb_spec (tx_i l) SIZE) as [Hlt|Hge]; try discriminate.
  1,3: intros [= <- <-]; exists 0%nat; simpl;
       split; [lia|]; split; [done|]; split; [lia|]; intros k Hk; lia.
  destruct (send_body_step ok l st) as (l1 & st1 & stop & Hbody & Hs & Hstep & Hstop);
    [lia..|].
  rewrite Hbody. destruct stop.
  - intros [= <- <-]. exists 1%nat. simpl. rewrite Hbody.
    split; [lia|]. split; [done|].
    split; [destruct (ok (sends l)); lia|].
    intros k Hk. assert (k = 0%nat) as -> by lia. simpl. lia.
  - intros Hrest.
    assert (failures l1 <> 100) by (intros Heq; by apply Hstop in Heq).
    apply IH in Hrest as (n & Hsn & Hrun & Hpos & Hgo);
      [|destruct (ok (sends l)); lia..].
    exists (S n). simpl. rewrite Hbody.
    split; [lia|]. split; [done|].
    split; [rewrite Hpos, Hs; destruct (ok (sends l)); lia|].
    intros [|k] Hk; simpl; [lia|]. rewrite Hbody. apply Hgo. lia.
Qed.

End SendLoop.

(** C2. Whatever the send outcomes [ok], the send loop of a transmit cycle
    terminates.  Each iteration either advances the stream position by one
    (success) or counts one more failure (failure) and breaks out exactly
    when the failures reach 100, and no iteration starts once the position
    is SIZE; started at position 0 with no failure, the loop ends after some
    [n <= SIZE + 100] iterations (it needs exactly [n]), and it ends either
    with the position at SIZE or, aborted, with exactly 100 failures and the
    position below SIZE.  What it ends with is what [n] runs of its body
    give: the position is the number of sends among the first [n] that
    succeeded, the failures are the others, and before each of the [n]
    iterations the position was below SIZE and the failures below 100, so
    the loop left at the first state that reaches either bound. *)
Theorem send_loop_terminates (SIZE : Z) (char_signed : bool)
    (ok : nat -> bool) (st : state) :
  1 <= SIZE <= 32 ->
  (forall l st0, 0 <= tx_i l < SIZE -> 0 <= failures l < 100 ->
     exists l' st' stop,
       send_body SIZE char_signed ok l st0 = (l', st', stop)
       /\ sends l' = S (sends l)
       /\ (if ok (sends l)
           then tx_i l' = tx_i l + 1 /\ failures l' = failures l
           else tx_i l' = tx_i l /\ failures l' = failures l + 1)
       /\ (stop = true <-> failures l' = 100))
  /\ (forall fuel l st0, SIZE <= tx_i l ->
        send_while SIZE char_signed fuel ok l st0 = Some (l, st0))
  /\ exists (n : nat) l' st',
       Z.of_nat n <= SIZE + 100
       /\ (forall fuel, (n <= fuel)%nat ->
             send_while SIZE char_signed fuel ok (TxLocals 0 0 0) st = Some (l', st'))
       /\ (forall fuel, (fuel < n)%nat ->
             send_while SIZE char_signed fuel ok (TxLocals 0 0 0) st = None)
       /\ sends l' = n
       /\ Z.of_nat n = tx_i l' + failures l'
       /\ (tx_i l' = SIZE /\ 0 <= failures l' < 100
           \/ failures l' = 100 /\ 0 <= tx_i l' < SIZE)
       /\ (l', st') = send_steps SIZE char_signed n ok (TxLocals 0 0 0) st
       /\ tx_i l' = Z.of_nat (successes ok 0 n)
       /\ failures l' = Z.of_nat n - Z.of_nat (successes ok 0 n)
       /\ (forall k, (k < n)%nat ->
             0 <= tx_i (send_steps SIZE char_signed k ok (TxLocals 0 0 0) st).1 < SIZE
             /\ 0 <= failures (send_steps SIZE char_signed k ok (TxLocals 0 0 0) st).1
                < 100).
Proof.
  intros HS. split; [|split].
  - intros l st0. by apply send_body_step.
  - intros fuel l st0. apply send_while_done.
  - destruct (send_while_exits SIZE char_signed HS ok (Z.to_nat SIZE + 99)
                (TxLocals 0 0 0) st)
      as (n & l' & st' & Hn & Hsome & Hnone & Hsends & Hcount & Hend);
      cbn [tx_i failures sends] in *; try lia.
    destruct (send_while_steps SIZE char_signed HS ok n (TxLocals 0 0 0) l' st st')
      as (n' & Hsn & Hrun & Hpos & Hgo); cbn [tx_i failures sends] in *;
      [lia|lia|by apply Hsome|].
    assert (n' = n) as -> by lia.
    exists n, l', st'.
    split; [lia|]. split; [done|]. split; [done|]. split; [done|].
    split; [lia|]. split; [done|]. split; [done|]. split; [lia|].
    split; [lia|done].
Qed.

Lemma send_loop_terminates_witness :
  exists (n : nat) l' st',
    Z.of_nat n <= 32 + 100
    /\ (forall fuel, (n <= fuel)%nat ->
          send_while 32 false fuel (fun _ => false) (TxLocals 0 0 0)
            (State true (replicate 33 0) 0 false []) = Some (l', st'))
    /\ (forall fuel, (fuel < n)%nat ->
          send_while 32 false fuel (fun _ => false) (TxLocals 0 0 0)
            (State true (replicate 33 0) 0 false []) = None)
    /\ sends l' = n
    /\ Z.of_nat n = tx_i l' + failures l'
    /\ (tx_i l' = 32 /\ 0 <= failures l' < 100
        \/ failures l' = 100 /\ 0 <= tx_i l' < 32)
    /\ (l', st') = send_steps 32 false n (fun _ => false) (TxLocals 0 0 0)
                     (State true (replicate 33 0) 0 false [])
    /\ tx_i l' = Z.of_nat (successes (fun _ => false) 0 n)
    /\ failures l' = Z.of_nat n - Z.of_nat (successes (fun _ => false) 0 n)
    /\ (forall k, (k < n)%nat ->
          0 <= tx_i (send_steps 32 false k (fun _ => false) (TxLocals 0 0 0)
                       (State true (replicate 33 0) 0 false [])).1 < 32
          /\ 0 <= failures (send_steps 32 false k (fun _ => false) (TxLocals 0 0 0)
                              (State true (replicate 33 0) 0 false [])).1 < 100).
Proof.
  exact (proj2 (proj2 (send_loop_terminates 32 false (fun _ => false)
                         (State true (replicate 33 0) 0 false []) ltac:(lia)))).
Defined.

(** All sends fail: the loop aborts at the 100th failure, still at payload
    'A'. *)
Example send_loop_all_fail :
  (fun r => (r.1, last (out r.2)))
    <$> send_while 32 false 132 (fun _ => false) (TxLocals 0 0 0)
          (State true (replicate 33 0) 0 false [])
  = Some (TxLocals 0 100 100,
          Some (printf "Too many failures detected. Aborting at payload %c"
                       [ArgChar 65])).
Proof. vm_compute. reflexivity. Qed.

(** All sends succeed: 32 iterations, no failure, and the last payload sent
    starts with 'f' ('G' + 31). *)
Example send_loop_all_ok :
  (fun r => (r.1, buffer r.2 !! 0%nat, length (out r.2)))
    <$> send_while 32 false 132 (fun _ => true) (TxLocals 0 0 0)
          (State true (replicate 33 0) 0 false [])
  = Some (TxLocals 32 0 32, Some 102, 32%nat).
Proof. vm_compute. reflexivity. Qed.

(** ** What a tick leaves alone *)

Section Frames.

Variable SIZE : Z.
Variable char_signed : bool.
Hypothesis SIZE_range : 1 <= SIZE <= 32.

Lemma send_body_frame (ok : nat -> bool) (l l' : tx_locals) (st st' : state) (stop : bool) :
  send_body SIZE char_signed ok l st = (l', st', stop) ->
  role st' = role st /\ counter st' = counter st /\ listening st' = listening st
  /\ buffer st' = makePayload SIZE char_signed (tx_i l) (buffer st)
  /\ exists es, out st' = out st ++ es /\ Forall (fun e => is_stream_event e = true) es.
Proof.
  unfold send_body. cbv zeta.
  destruct (ok (sends l)); cbn [negb];
    match goal with |- context [?a >=? ?b] => destruct (Z.geb_spec a b) end;
    intros [= <- <- <-]; cbn [role counter listening buffer out emit set_buffer];
    (do 4 (split; [reflexivity|]));
    rewrite <- ?app_assoc; eexists; (split; [reflexivity|]);
    repeat constructor.
Qed.

Lemma send_while_frame (ok : nat -> bool) (fuel : nat) :
  forall (l l' : tx_locals) (st st' : state),
    send_while SIZE char_signed fuel ok l st = Some (l', st') ->
    role st' = role st /\ counter st' = counter st /\ listening st' = listening st
    /\ length (buffer st') = length (buffer st)
    /\ (forall k, (Z.to_nat SIZE <= k)%nat -> buffer st' !! k = buffer st !! k)
    /\ exists es, out st' = out st ++ es /\ Forall (fun e => is_stream_event e = true) es.
Proof.
  assert (Hrefl : forall st : state,
            role st = role st /\ counter st = counter st /\ listening st = listening st
            /\ length (buffer st) = length (buffer st)
            /\ (forall k, (Z.to_nat SIZE <= k)%nat -> buffer st !! k = buffer st !! k)
            /\ exists es, out st = out st ++ es
                          /\ Forall (fun e => is_stream_event e = true) es).
  { intros st. do 5 (split; [done|]). exists []. by rewrite app_nil_r. }
  induction fuel as [|fuel IH]; intros l l' st st'; simpl;
    destruct (tx_i l <? SIZE); try discriminate; try (intros [= <- <-]; apply Hrefl).
  destruct (send_body SIZE char_signed ok l st) as [[l1 st1] stop] eqn:Hbody.
  apply send_body_frame in Hbody as (Hr & Hc & Hl & Hb & es & Ho & Hes).
  assert (Hstep : role st1 = role st /\ counter st1 = counter st
                  /\ listening st1 = listening st
                  /\ length (buffer st1) = length (buffer st)
                  /\ (forall k, (Z.to_nat SIZE <= k)%nat -> buffer st1 !! k = buffer st !! k)).
  { do 3 (split; [done|]). rewrite Hb. split; [apply makePayload_length|].
    intros k Hk. apply makePayload_beyond; lia. }
  destruct Hstep as (_ & _ & _ & Hlen & Hkeep).
  destruct stop.
  - intros [= <- <-]. do 5 (split; [done|]). by exists es.
  - intros Hrest. apply IH in Hrest as (Hr' & Hc' & Hl' & Hlen' & Hkeep' & es' & Ho' & Hes').
    split; [congruence|]. split; [congruence|]. split; [congruence|].
    split; [congruence|]. split.
    + intros k Hk. rewrite Hkeep' by done. by apply Hkeep.
    + exists (es ++ es'). rewrite Ho', Ho, app_assoc. split; [done|].
      by apply Forall_app.
Qed.

(** A transmit cycle returns, and touches neither the role, the counter nor
    the transceiver's mode. *)
Lemma transmit_stream_frame (inp : tick_input) (st : state) :
  exists st',
    transmit_stream SIZE char_signed inp st = Some st'
    /\ role st' = role st /\ counter st' = counter st /\ listening st' = listening st
    /\ length (buffer st') = length (buffer st)
    /\ (forall k, (Z.to_nat SIZE <= k)%nat -> buffer st' !! k = buffer st !! k)
    /\ exists es, out st' = out st ++ radio_flush_tx :: es
                  /\ Forall (fun e => is_stream_event e = true) es.
Proof.
  unfold transmit_stream. cbv zeta.
  set (st0 := emit (to_us_since_boot (t_start inp)) (emit radio_flush_tx st)).
  destruct (send_while_exits SIZE char_signed SIZE_range (tx_ok inp)
              (Z.to_nat SIZE + 99) (TxLocals 0 0 0) st0)
    as (n & l' & st' & Hn & Hsome & _); cbn [tx_i failures]; try lia.
  rewrite (Hsome (send_fuel SIZE)) by (unfold send_fuel; lia).
  pose proof (Hsome n (Nat.le_refl n)) as Hrun.
  apply send_while_frame in Hrun as (Hr & Hc & Hl & Hlen & Hkeep & es & Ho & Hes).
  eexists. split; [reflexivity|].
  cbn [role counter listening buffer out emit].
  do 5 (split; [done|]).
  rewrite Ho. subst st0. cbn [out emit]. rewrite <- !app_assoc.
  eexists. split; [reflexivity|].
  constructor; [done|]. apply Forall_app. split; [done|]. repeat constructor.
Qed.

End Frames.

(** ** The role change *)

Section RoleChange.

Variable char_signed : bool.
Variable PICO_ERROR_TIMEOUT : Z.

(** A character that is none of 'T', 't', 'R', 'r' changes nothing: the
    state is the one right after the call that sampled the terminal. *)
Lemma change_role_other (r : Z) (st : state) :
  to_char char_signed r <> 84 -> to_char char_signed r <> 116 ->
  to_char char_signed r <> 82 -> to_char char_signed r <> 114 ->
  change_role char_signed PICO_ERROR_TIMEOUT r st = emit (getchar_timeout_us 500 r) st.
Proof.
  intros HT Ht HR Hr. unfold change_role. cbv zeta.
  destruct (Z.eqb_spec (to_char char_signed r) 84); [done|].
  destruct (Z.eqb_spec (to_char char_signed r) 116); [done|].
  destruct (Z.eqb_spec (to_char char_signed r) 82); [done|].
  destruct (Z.eqb_spec (to_char char_signed r) 114); [done|].
  by destruct (negb _).
Qed.

(** So does the time-out, for an error code that fits a [signed char]. *)
Lemma change_role_timeout (st : state) :
  -128 <= PICO_ERROR_TIMEOUT < 0 ->
  change_role char_signed PICO_ERROR_TIMEOUT PICO_ERROR_TIMEOUT st
  = emit (getchar_timeout_us 500 PICO_ERROR_TIMEOUT) st.
Proof.
  intros HP.
  assert (to_char char_signed PICO_ERROR_TIMEOUT < 0
          \/ 128 <= to_char char_signed PICO_ERROR_TIMEOUT) as Hc.
  { unfold to_char. destruct char_signed.
    - left. rewrite Z.mod_small; lia.
    - right. replace PICO_ERROR_TIMEOUT with (PICO_ERROR_TIMEOUT + 256 + (-1) * 256) by lia.
      rewrite Z.mod_add by lia. rewrite Z.mod_small; lia. }
  apply change_role_other; lia.
Qed.

(** Every tick samples the terminal once, first thing in [change_role], and
    what may follow is a message and the switch of the transceiver's mode. *)
Lemma change_role_frame (r : Z) (st : state) :
  buffer (change_role char_signed PICO_ERROR_TIMEOUT r st) = buffer st
  /\ exists cmd,
       out (change_role char_signed PICO_ERROR_TIMEOUT r st)
       = out st ++ getchar_timeout_us 500 r :: cmd
       /\ Forall (fun e => is_tick_event e = false) cmd
       /\ Forall (prints_at_most 0) cmd.
Proof.
  unfold change_role. cbv zeta.
  destruct (negb _); [destruct (_ && _); [|destruct (_ && _)]|];
    cbn [buffer out emit set_counter set_role set_listening stopListening startListening];
    (split; [reflexivity|]); rewrite <- ?app_assoc; eexists;
    (split; [reflexivity|]); split; repeat constructor.
Qed.

End RoleChange.

(** C6. Whatever the counter holds, 'T' or 't' read while the node is a
    receiver makes it a transmitter, resets the counter to 0 and tells the
    radio to stop listening; 'R' or 'r' read while the node is a transmitter
    makes it a receiver, tells the radio to start listening and leaves the
    counter as it is. *)
Theorem become_transmitter_resets_counter (char_signed : bool)
    (PICO_ERROR_TIMEOUT : Z) (r : Z) (st : state) :
  PICO_ERROR_TIMEOUT < 0 ->
  (role st = false -> r = 84 \/ r = 116 ->
     let st' := change_role char_signed PICO_ERROR_TIMEOUT r st in
     role st' = true /\ counter st' = 0 /\ listening st' = false
     /\ buffer st' = buffer st
     /\ out st' = out st ++
          [getchar_timeout_us 500 r;
           printf "*** CHANGING TO TRANSMIT ROLE -- PRESS 'R' TO SWITCH BACK\n" [];
           radio_stopListening])
  /\ (role st = true -> r = 82 \/ r = 114 ->
        let st' := change_role char_signed PICO_ERROR_TIMEOUT r st in
        role st' = false /\ counter st' = counter st /\ listening st' = true
        /\ buffer st' = buffer st
        /\ out st' = out st ++
             [getchar_timeout_us 500 r;
              printf "*** CHANGING TO RECEIVE ROLE -- PRESS 'T' TO SWITCH BACK\n" [];
              radio_startListening]).
Proof.
  intros HP. split; intros Hrole [-> | ->]; unfold change_role; cbv zeta;
    rewrite to_char_small by lia;
    match goal with |- context [?c =? PICO_ERROR_TIMEOUT] =>
      destruct (Z.eqb_spec c PICO_ERROR_TIMEOUT); [lia|] end;
    cbn [role emit negb Z.eqb Pos.eqb orb andb]; rewrite Hrole;
    cbn [negb andb role counter listening buffer out emit set_counter set_role
         set_listening stopListening startListening];
    rewrite <- ?app_assoc; done.
Qed.

Lemma become_transmitter_resets_counter_witness :
  let st' := change_role false (-1) 116 (State false (replicate 33 0) 200 true []) in
  role st' = true /\ counter st' = 0 /\ listening st' = false.
Proof.
  pose proof (proj1 (become_transmitter_resets_counter false (-1) 116
                       (State false (replicate 33 0) 200 true []) ltac:(lia))
                eq_refl (or_intror eq_refl)) as H.
  cbv zeta in *. destruct H as (Hr & Hc & Hl & _). auto.
Defined.

(** C7. Asking for the role the node already has changes nothing: 'T' or 't'
    read by a transmitter, 'R' or 'r' read by a receiver, leave the role, the
    counter, the buffer and the transceiver's mode as they are, and no call
    follows the one that sampled the terminal. *)
Theorem same_role_request_is_noop (char_signed : bool)
    (PICO_ERROR_TIMEOUT : Z) (r : Z) (st : state) :
  (role st = true /\ (r = 84 \/ r = 116)) \/ (role st = false /\ (r = 82 \/ r = 114)) ->
  let st' := change_role char_signed PICO_ERROR_TIMEOUT r st in
  role st' = role st /\ counter st' = counter st /\ listening st' = listening st
  /\ buffer st' = buffer st
  /\ out st' = out st ++ [getchar_timeout_us 500 r].
Proof.
  intros [[Hrole [-> | ->]] | [Hrole [-> | ->]]]; unfold change_role; cbv zeta;
    rewrite to_char_small by lia;
    cbn [role emit Z.eqb Pos.eqb orb andb]; rewrite Hrole;
    cbn [negb andb]; by destruct (negb _).
Qed.

Lemma same_role_request_is_noop_witness :
  let st' := change_role false (-1) 84 (State true (replicate 33 0) 7 false []) in
  role st' = true /\ counter st' = 7 /\ listening st' = false
  /\ out st' = [getchar_timeout_us 500 84].
Proof.
  pose proof (same_role_request_is_noop false (-1) 84
                (State true (replicate 33 0) 7 false [])
                (or_introl (conj eq_refl (or_introl eq_refl)))) as H.
  cbv zeta in *. destruct H as (Hr & Hc & Hl & _ & Ho). auto.
Defined.

(** ** One tick *)

Lemma stream_event_not_sample (e : event) :
  is_stream_event e = true -> is_sample e = false.
Proof. by destruct e. Qed.

Section Tick.

Variable SIZE : Z.
Variable char_signed : bool.
Variable PICO_ERROR_TIMEOUT : Z.
Hypothesis SIZE_range : 1 <= SIZE <= 32.

(** The receiver's poll, spelled out. *)
Lemma receive_poll_frame (inp : tick_input) (st : state) :
  let buf := RF24_read char_signed (rx_payload inp) SIZE (buffer st) in
  let st' := receive_poll SIZE char_signed inp st in
  role st' = role st /\ listening st' = listening st
  /\ buffer st' = (if rx_ready inp then buf else buffer st)
  /\ counter st' = (if rx_ready inp then uint8_t (counter st + 1) else counter st)
  /\ out st' = out st ++ radio_available (rx_ready inp) ::
         (if rx_ready inp
          then [radio_read (take (Z.to_nat SIZE) buf) SIZE;
                printf "Received: %s - #d" [ArgStr (c_str buf); ArgInt (counter st)]]
          else []).
Proof.
  unfold receive_poll. cbv zeta. destruct (rx_ready inp);
    cbn [role listening buffer counter out emit set_buffer set_counter];
    rewrite <- ?app_assoc; done.
Qed.

(** The role's work of a tick: it returns, it is the work of the role the
    tick starts in, it does not sample the terminal and leaves the role and
    the transceiver's mode alone. *)
Lemma role_work_frame (inp : tick_input) (st : state) :
  exists st1 work,
    (if role st then transmit_stream SIZE char_signed inp st
     else Some (receive_poll SIZE char_signed inp st)) = Some st1
    /\ role st1 = role st /\ listening st1 = listening st
    /\ out st1 = out st ++ work
    /\ head work = Some (if role st then radio_flush_tx
                         else radio_available (rx_ready inp))
    /\ Forall (fun e => is_sample e = false) work.
Proof.
  destruct (role st) eqn:Hrole.
  - destruct (transmit_stream_frame SIZE char_signed SIZE_range inp st)
      as (st1 & Hrun & Hr & _ & Hl & _ & _ & es & Ho & Hes).
    exists st1, (radio_flush_tx :: es). rewrite Hrun, Ho.
    do 5 (split; [congruence || done|]).
    constructor; [done|]. eapply Forall_impl; [exact Hes|].
    intros e. apply stream_event_not_sample.
  - destruct (receive_poll_frame inp st) as (Hr & Hl & _ & _ & Ho).
    eexists _, _. split; [reflexivity|].
    do 3 (split; [congruence || done|]). split; [done|].
    destruct (rx_ready inp); repeat constructor.
Qed.

End Tick.

(** C4 fails on the code.  The order of a tick in the code differs from the
    order the specification gives: a receiver that reads 'T' while a payload
    is waiting.  The code
    fetches the payload (receiver's work) and then becomes a transmitter; in
    the specification's order the node would have become a transmitter first
    and streamed. *)
Lemma loop_not_command_first :
  let st := State false (replicate 33 0) 5 true [] in
  let inp := TickInput (fun _ => true) true (fun _ => 65) 84 0 0 in
  loop 32 false (-1) inp st <> tick_command_first 32 false (-1) inp st.
Proof.
  intros st inp H.
  apply (f_equal (fmap (M := option) (fun s => head (out s)))) in H.
  vm_compute in H. discriminate H.
Qed.

(** C4, as the code has it.  In every tick the role's work comes first and is
    the work of the role the tick starts in; it samples no command and leaves
    the role and the transceiver's mode alone.  Only then is the terminal
    sampled and the role changed, by calls that are no role work; so a command
    shows in the role work of the next tick, whose first call is
    [radio.flush_tx()] or [radio.available()] by the role the command left. *)
Theorem role_work_precedes_command (SIZE : Z) (char_signed : bool)
    (PICO_ERROR_TIMEOUT : Z) (inp inp' : tick_input) (st : state) :
  1 <= SIZE <= 32 ->
  exists st1 st2 st3 work cmd rest,
    (if role st then transmit_stream SIZE char_signed inp st
     else Some (receive_poll SIZE char_signed inp st)) = Some st1
    /\ role st1 = role st /\ listening st1 = listening st
    /\ out st1 = out st ++ work
    /\ head work = Some (if role st then radio_flush_tx
                         else radio_available (rx_ready inp))
    /\ Forall (fun e => is_sample e = false) work
    /\ loop SIZE char_signed PICO_ERROR_TIMEOUT inp st = Some st2
    /\ st2 = change_role char_signed PICO_ERROR_TIMEOUT (key inp) st1
    /\ out st2 = out st1 ++ getchar_timeout_us 500 (key inp) :: cmd
    /\ Forall (fun e => is_tick_event e = false) cmd
    /\ loop SIZE char_signed PICO_ERROR_TIMEOUT inp' st2 = Some st3
    /\ out st3 = out st2 ++ (if role st2 then radio_flush_tx
                             else radio_available (rx_ready inp')) :: rest.
Proof.
  intros HS.
  destruct (role_work_frame SIZE char_signed HS inp st)
    as (st1 & work & Hwork & Hr & Hl & Ho & Hhead & Hns).
  set (st2 := change_role char_signed PICO_ERROR_TIMEOUT (key inp) st1).
  destruct (change_role_frame char_signed PICO_ERROR_TIMEOUT (key inp) st1)
    as (_ & cmd & Hcmd & Hnt & _).
  destruct (role_work_frame SIZE char_signed HS inp' st2)
    as (st3 & work' & Hwork' & _ & _ & Ho' & Hhead' & _).
  destruct (change_role_frame char_signed PICO_ERROR_TIMEOUT (key inp') st3)
    as (_ & cmd' & Hcmd' & _).
  destruct work' as [|e work']; [discriminate|]. injection Hhead' as ->.
  exists st1, st2, (change_role char_signed PICO_ERROR_TIMEOUT (key inp') st3),
    work, cmd, (work' ++ getchar_timeout_us 500 (key inp') :: cmd').
  do 6 (split; [done|]).
  split; [unfold loop; by rewrite Hwork|].
  do 3 (split; [done|]).
  split; [unfold loop; by rewrite Hwork'|].
  rewrite Hcmd', Ho'. by rewrite <- app_assoc.
Qed.

Lemma role_work_precedes_command_witness :
  exists st1 st2,
    receive_poll 32 false (TickInput (fun _ => true) true (fun _ => 65) 84 0 0)
      (State false (replicate 33 0) 5 true []) = st1
    /\ loop 32 false (-1) (TickInput (fun _ => true) true (fun _ => 65) 84 0 0)
         (State false (replicate 33 0) 5 true []) = Some st2
    /\ st2 = change_role false (-1) 84 st1.
Proof.
  destruct (role_work_precedes_command 32 false (-1)
              (TickInput (fun _ => true) true (fun _ => 65) 84 0 0)
              (TickInput (fun _ => true) false (fun _ => 0) (-1) 0 0)
              (State false (replicate 33 0) 5 true []) ltac:(lia))
    as (st1 & st2 & st3 & work & cmd & rest & Hwork & _ & _ & _ & _ & _ & Hloop & Hst2 & _).
  exists st1, st2. cbn [role] in Hwork. injection Hwork as Hwork. auto.
Defined.

(** What that tick does in the code: the payload is fetched and counted,
    then 'T' is read, the counter reset and the radio told to stop listening. *)
Example loop_receives_then_switches :
  loop 32 false (-1) (TickInput (fun _ => true) true (fun _ => 65) 84 0 0)
    (State false (replicate 33 0) 5 true [])
  = Some (State true (replicate 32 65 ++ [0]) 0 false
            [radio_available true;
             radio_read (replicate 32 65) 32;
             printf "Received: %s - #d" [ArgStr (replicate 32 65); ArgInt 5];
             getchar_timeout_us 500 84;
             printf "*** CHANGING TO TRANSMIT ROLE -- PRESS 'R' TO SWITCH BACK\n" [];
             radio_stopListening]).
Proof. vm_compute. reflexivity. Qed.

(** C5, at an idle tick of a receiver (no payload waiting, no key pressed):
    the terminal is sampled by [getchar_timeout_us(500)], a wait of at most
    500 microseconds, not the 500 milliseconds (500000 microseconds) of
    section 4.4 of the specification and of the comments at lines 130 and
    143.  Nothing else happens. *)
Theorem command_wait_is_500_microseconds :
  loop 32 false (-1) (TickInput (fun _ => true) false (fun _ => 0) (-1) 0 0)
    (State false (replicate 33 0) 0 true [])
  = Some (State false (replicate 33 0) 0 true
            [radio_available false; getchar_timeout_us 500 (-1)])
  /\ 500 < us_of_ms 500.
Proof. split; [vm_compute; reflexivity|unfold us_of_ms; lia]. Qed.

(** In every tick, whatever the state and the inputs, the one call that
    samples the terminal is [getchar_timeout_us(500)]. *)
Lemma every_tick_waits_500_microseconds (SIZE : Z) (char_signed : bool)
    (PICO_ERROR_TIMEOUT : Z) (inp : tick_input) (st : state) :
  1 <= SIZE <= 32 ->
  exists st' es,
    loop SIZE char_signed PICO_ERROR_TIMEOUT inp st = Some st'
    /\ out st' = out st ++ es
    /\ filter (fun e => is_sample e = true) es = [getchar_timeout_us 500 (key inp)].
Proof.
  intros HS.
  destruct (role_work_frame SIZE char_signed HS inp st)
    as (st1 & work & Hwork & _ & _ & Ho & _ & Hns).
  destruct (change_role_frame char_signed PICO_ERROR_TIMEOUT (key inp) st1)
    as (_ & cmd & Hcmd & Hnt & _).
  eexists _, (work ++ getchar_timeout_us 500 (key inp) :: cmd).
  split; [unfold loop; by rewrite Hwork|].
  split; [cbn [mbind option_bind]; by rewrite Hcmd, Ho, <- app_assoc|].
  rewrite filter_app, filter_cons_True by done.
  assert (Hnil : forall l : list event,
            Forall (fun e => is_sample e = false) l ->
            filter (fun e => is_sample e = true) l = []).
  { induction 1 as [|e l He _ IH]; [done|].
    rewrite filter_cons_False; [done|]. by rewrite He. }
  rewrite (Hnil work Hns), Hnil; [done|].
  eapply Forall_impl; [exact Hnt|]. intros e He.
  destruct e; try done.
Qed.

(** ** Start-up *)

Lemma setup_event_not_tick (e : event) :
  is_setup_event e = true -> is_tick_event e = false.
Proof. destruct e; simpl; done. Qed.

Lemma no_string_prints (n : nat) (args : list printf_arg) :
  no_string args = true ->
  Forall (fun a => match a with ArgStr s => (length s <= n)%nat | _ => True end) args.
Proof.
  induction args as [|a args IH]; simpl; [constructor|].
  intros [Ha Hargs]%andb_prop. constructor; [by destruct a|by apply IH].
Qed.

Lemma setup_event_prints (n : nat) (e : event) :
  is_setup_event e = true -> prints_at_most n e.
Proof. destruct e; simpl; try done. apply no_string_prints. Qed.

Lemma stream_event_prints (n : nat) (e : event) :
  is_stream_event e = true -> prints_at_most n e.
Proof. destruct e; simpl; try done. apply no_string_prints. Qed.

Section Startup.

Variable SIZE : Z.
Variable char_signed : bool.

Lemma wait_cdc_frame (connected : nat -> bool) (fuel : nat) :
  forall (k : nat) (st : state),
    let r := wait_cdc fuel connected k st in
    role r.2 = role st /\ buffer r.2 = buffer st /\ counter r.2 = counter st
    /\ listening r.2 = listening st
    /\ exists es, out r.2 = out st ++ es
                  /\ Forall (fun e => is_setup_event e = true) es.
Proof.
  induction fuel as [|fuel IH]; intros k st; simpl.
  - do 4 (split; [done|]). exists []. by rewrite app_nil_r.
  - destruct (connected k); simpl.
    + do 4 (split; [done|]). eexists. split; [reflexivity|]. by repeat constructor.
    + specialize (IH (S k) (emit_all [tud_cdc_connected false; sleep_ms 10] st)).
      simpl in IH. destruct IH as (Hr & Hb & Hc & Hl & es & Ho & Hes).
      do 4 (split; [done|]). rewrite Ho, <- app_assoc.
      eexists. split; [reflexivity|].
      apply Forall_app. split; [by repeat constructor|done].
Qed.

(** The wait ends as soon as the port is reported connected. *)
Lemma wait_cdc_connects (connected : nat -> bool) (fuel : nat) :
  forall (k j : nat) (st : state),
    connected (k + j)%nat = true -> (j < fuel)%nat ->
    (wait_cdc fuel connected k st).1 = true.
Proof.
  induction fuel as [|fuel IH]; intros k j st Hc Hj; [lia|]. simpl.
  destruct (connected k) eqn:Hk; [done|].
  destruct j as [|j]; [rewrite Nat.add_0_r in Hc; congruence|].
  apply (IH (S k) j); [|lia]. by replace (S k + j)%nat with (k + S j)%nat by lia.
Qed.

(** [setup()] sets the terminator, changes neither the role nor the counter,
    and makes no call of a tick. *)
Lemma setup_frame (fuel : nat) (si : setup_input) (st : state) :
  let r := setup SIZE char_signed fuel si st in
  role r.2 = role st /\ counter r.2 = counter st
  /\ buffer r.2 = <[Z.to_nat SIZE := 0]> (buffer st)
  /\ exists es, out r.2 = out st ++ es
                /\ Forall (fun e => is_setup_event e = true) es.
Proof.
  unfold setup. cbv zeta.
  pose proof (wait_cdc_frame (cdc si) fuel 0
                (set_buffer (<[Z.to_nat SIZE := 0]> (buffer st)) st)) as Hw.
  cbv zeta in Hw.
  destruct (wait_cdc fuel (cdc si) 0 _) as [connected st0].
  cbn [fst snd role buffer counter listening out set_buffer] in Hw.
  destruct Hw as (Hr & Hb & Hc & Hl & es & Ho & Hes).
  destruct connected; cbn [negb]; [|cbn [snd]; do 3 (split; [done|]); by exists es].
  destruct (begin_ok si); cbn [negb].
  - cbn [role emit]. destruct (role st0) eqn:Hrole;
      cbn [snd role counter buffer out emit stopListening startListening set_listening];
      rewrite ?Hrole;
      (do 3 (split; [done|])); rewrite Ho, <- !app_assoc;
      eexists; (split; [reflexivity|]);
      (apply Forall_app; split; [done|]); by repeat constructor.
  - cbn [snd role counter buffer out emit].
    do 3 (split; [done|]). rewrite Ho, <- !app_assoc.
    eexists. split; [reflexivity|].
    apply Forall_app. split; [done|]. by repeat constructor.
Qed.

(** When [radio.begin()] fails, [setup()] does not return true; once the
    port is connected it returns false, right after the report. *)
Lemma setup_radio_absent (fuel : nat) (si : setup_input) (st : state) :
  begin_ok si = false ->
  let r := setup SIZE char_signed fuel si st in
  (r.1 = None \/ r.1 = Some false)
  /\ (forall k, cdc si k = true -> (k < fuel)%nat ->
        r.1 = Some false
        /\ exists pre, out r.2 = pre ++ [radio_begin false;
                            printf "radio hardware is not responding!!\n" []]).
Proof.
  intros Hb. unfold setup. cbv zeta.
  pose proof (wait_cdc_connects (cdc si) fuel 0) as Hc.
  destruct (wait_cdc fuel (cdc si) 0 _) as [connected st0] eqn:Hw.
  rewrite Hb. destruct connected; cbn [negb fst snd].
  - split; [by right|]. intros k Hk Hfuel. split; [done|].
    cbn [out emit]. rewrite <- app_assoc. by eexists.
  - split; [by left|]. intros k Hk Hfuel.
    specialize (Hc k (set_buffer (<[Z.to_nat SIZE := 0]> (buffer st)) st) Hk Hfuel).
    rewrite Hw in Hc. discriminate Hc.
Qed.

End Startup.

(** C8. When [radio.begin()] fails, the tick loop is never entered: however
    long [main()] is observed, it is either still waiting for the serial port
    or has returned 0; no call of a tick (terminal sampling, radio work,
    timer) was ever made, the role and the counter are as at boot; and once
    the port is connected [main()] has returned, its last two calls being
    [radio.begin()] and the report of the failure. *)
Theorem radio_absent_no_tick (SIZE : Z) (char_signed : bool)
    (PICO_ERROR_TIMEOUT : Z) (fuel : nat) (si : setup_input)
    (inp : nat -> tick_input) :
  begin_ok si = false ->
  exists s st,
    main SIZE char_signed PICO_ERROR_TIMEOUT fuel si inp = Some (s, st)
    /\ (s = Waiting \/ s = Returned 0)
    /\ Forall (fun e => is_tick_event e = false) (out st)
    /\ role st = false /\ counter st = 0
    /\ (forall k, cdc si k = true -> (k < fuel)%nat ->
          s = Returned 0
          /\ exists pre, out st = pre ++ [radio_begin false;
                             printf "radio hardware is not responding!!\n" []]).
Proof.
  intros Hb. unfold main. cbv zeta.
  pose proof (setup_frame SIZE char_signed fuel si (emit stdio_init_all (boot SIZE)))
    as Hf.
  pose proof (setup_radio_absent SIZE char_signed fuel si
                (emit stdio_init_all (boot SIZE)) Hb) as Ha.
  cbv zeta in Hf, Ha.
  destruct (setup SIZE char_signed fuel si _) as [r st].
  cbn [fst snd] in Hf, Ha.
  destruct Hf as (Hr & Hc & _ & es & Ho & Hes).
  destruct Ha as (Hret & Hconn).
  assert (Hout : Forall (fun e => is_tick_event e = false) (out st)).
  { rewrite Ho. cbn [out emit boot]. apply Forall_app. split; [by repeat constructor|].
    eapply Forall_impl; [exact Hes|]. apply setup_event_not_tick. }
  destruct Hret as [-> | ->].
  - exists Waiting, st. do 2 (split; [auto|]). do 3 (split; [done|]).
    intros k Hk Hfuel. by destruct (Hconn k Hk Hfuel).
  - exists (Returned 0), st. do 2 (split; [auto|]). do 3 (split; [done|]).
    intros k Hk Hfuel. destruct (Hconn k Hk Hfuel) as [_ Hlast]. done.
Qed.

Lemma radio_absent_no_tick_witness :
  exists st,
    main 32 false (-1) 10 (SetupInput (fun k => (2 <=? k)%nat) false 49)
      (fun _ => TickInput (fun _ => true) true (fun _ => 65) 84 0 0)
    = Some (Returned 0, st)
    /\ Forall (fun e => is_tick_event e = false) (out st).
Proof.
  destruct (radio_absent_no_tick 32 false (-1) 10
              (SetupInput (fun k => (2 <=? k)%nat) false 49)
              (fun _ => TickInput (fun _ => true) true (fun _ => 65) 84 0 0)
              eq_refl) as (s & st & Hmain & _ & Hout & _ & _ & Hconn).
  destruct (Hconn 2%nat eq_refl ltac:(lia)) as [-> _].
  exists st. auto.
Defined.

(** Such a run, call by call: the port is connected at the third poll. *)
Example radio_absent_run :
  main 32 false (-1) 10 (SetupInput (fun k => (2 <=? k)%nat) false 49)
    (fun _ => TickInput (fun _ => true) true (fun _ => 65) 84 0 0)
  = Some (Returned 0,
          State false (replicate 33 0) 0 false
            [stdio_init_all;
             tud_cdc_connected false; sleep_ms 10;
             tud_cdc_connected false; sleep_ms 10;
             tud_cdc_connected true;
             radio_begin false;
             printf "radio hardware is not responding!!\n" []]).
Proof. vm_compute. reflexivity. Qed.

(** ** The terminator of the buffer *)

Lemma prints_at_most_mono (n m : nat) (e : event) :
  (n <= m)%nat -> prints_at_most n e -> prints_at_most m e.
Proof.
  intros Hnm. destruct e; simpl; try done.
  intros H. eapply Forall_impl; [exact H|]. intros [] ?; try done. lia.
Qed.

(** A NUL at index [n] bounds the string by [n] characters. *)
Lemma c_str_bound (buf : list Z) :
  forall n : nat, buf !! n = Some 0 -> (length (c_str buf) <= n)%nat.
Proof.
  induction buf as [|c buf IH]; intros n Hn; simpl; [lia|].
  destruct (Z.eqb_spec c 0); simpl; [lia|].
  destruct n as [|n]; simpl in Hn; [congruence|].
  specialize (IH n Hn). lia.
Qed.

(** With no NUL before index [n] and one there, the string is the first [n]
    cells. *)
Lemma c_str_full (n : nat) :
  forall buf : list Z,
    (forall k c, (k < n)%nat -> buf !! k = Some c -> c <> 0) ->
    buf !! n = Some 0 ->
    c_str buf = take n buf.
Proof.
  induction n as [|n IH]; intros [|c buf] Hnz Hn; try done; simpl in *.
  - injection Hn as ->. done.
  - destruct (Z.eqb_spec c 0) as [->|_].
    + by destruct (Hnz 0%nat 0 ltac:(lia) eq_refl).
    + f_equal. apply IH; [|done]. intros k c' Hk Hc'. apply (Hnz (S k) c'); [lia|done].
Qed.

Section Terminator.

Variable SIZE : Z.
Variable char_signed : bool.
Variable PICO_ERROR_TIMEOUT : Z.
Hypothesis SIZE_range : 1 <= SIZE <= 32.

Local Abbreviation terminated := (terminated SIZE).

Lemma RF24_read_length (payload : nat -> Z) (buf : list Z) :
  length buf = Z.to_nat (SIZE + 1) ->
  length (RF24_read char_signed payload SIZE buf) = Z.to_nat (SIZE + 1).
Proof.
  intros Hlen. unfold RF24_read.
  rewrite length_app, length_fmap, length_seq, length_drop. lia.
Qed.

Lemma RF24_read_beyond (payload : nat -> Z) (buf : list Z) (k : nat) :
  (Z.to_nat SIZE <= k)%nat ->
  length buf = Z.to_nat (SIZE + 1) ->
  RF24_read char_signed payload SIZE buf !! k = buf !! k.
Proof.
  intros Hk Hlen. unfold RF24_read.
  rewrite lookup_app_r; rewrite length_fmap, length_seq; [|done].
  rewrite lookup_drop. f_equal. lia.
Qed.

Lemma RF24_read_payload (payload : nat -> Z) (buf : list Z) (k : nat) :
  (k < Z.to_nat SIZE)%nat ->
  RF24_read char_signed payload SIZE buf !! k = Some (to_char char_signed (payload k)).
Proof.
  intros Hk. unfold RF24_read.
  rewrite lookup_app_l by (by rewrite length_fmap, length_seq).
  by rewrite list_lookup_fmap, lookup_seq_lt.
Qed.

Lemma RF24_read_terminated (payload : nat -> Z) (buf : list Z) :
  terminated buf -> terminated (RF24_read char_signed payload SIZE buf).
Proof.
  intros [Hlen Hnul]. split; [by apply RF24_read_length|].
  by rewrite RF24_read_beyond.
Qed.

(** A payload built for a position below [SIZE] holds no NUL. *)
Lemma makePayload_no_nul (i : Z) (buf : list Z) (k : nat) (c : Z) :
  0 <= i < SIZE -> length buf = Z.to_nat (SIZE + 1) ->
  (k < Z.to_nat SIZE)%nat ->
  makePayload SIZE char_signed i buf !! k = Some c -> c <> 0.
Proof.
  intros Hi Hlen Hk. destruct k as [|k].
  - rewrite makePayload_marker by lia.
    rewrite to_char_small by (destruct (i <? 26); lia).
    intros [= <-]. destruct (i <? 26); lia.
  - replace (S k) with (Z.to_nat (Z.of_nat k + 1)) by lia.
    rewrite makePayload_digit by lia. intros [= <-].
    pose proof (chevron_range SIZE char_signed i (Z.of_nat k)). lia.
Qed.

(** A tick returns and keeps the terminator; no string it prints is longer
    than [SIZE]. *)
Lemma loop_terminated (inp : tick_input) (st : state) :
  terminated (buffer st) ->
  exists st' es,
    loop SIZE char_signed PICO_ERROR_TIMEOUT inp st = Some st'
    /\ terminated (buffer st')
    /\ out st' = out st ++ es
    /\ Forall (prints_at_most (Z.to_nat SIZE)) es.
Proof.
  intros [Hlen Hnul]. unfold loop.
  destruct (role st) eqn:Hrole.
  - destruct (transmit_stream_frame SIZE char_signed SIZE_range inp st)
      as (st1 & -> & _ & _ & _ & Hlen1 & Hkeep & es & Ho & Hes).
    destruct (change_role_frame char_signed PICO_ERROR_TIMEOUT (key inp) st1)
      as (Hbuf & cmd & Hcmd & _ & Hpr).
    eexists _, _. split; [reflexivity|]. rewrite Hbuf, Hcmd, Ho.
    split; [split; [congruence|by rewrite Hkeep]|].
    rewrite <- app_assoc. split; [reflexivity|].
    constructor; [done|]. apply Forall_app. split.
    + eapply Forall_impl; [exact Hes|]. intros e. apply stream_event_prints.
    + constructor; [done|]. eapply Forall_impl; [exact Hpr|].
      intros e. apply prints_at_most_mono. lia.
  - destruct (receive_poll_frame SIZE char_signed inp st) as (_ & _ & Hb & _ & Ho).
    destruct (change_role_frame char_signed PICO_ERROR_TIMEOUT (key inp)
                (receive_poll SIZE char_signed inp st))
      as (Hbuf & cmd & Hcmd & _ & Hpr).
    eexists _, _. split; [reflexivity|]. cbn [mbind option_bind].
    rewrite Hbuf, Hcmd, Ho, Hb.
    assert (Hterm : terminated (RF24_read char_signed (rx_payload inp) SIZE (buffer st)))
      by (by apply RF24_read_terminated).
    split; [by destruct (rx_ready inp)|].
    rewrite <- app_assoc. split; [reflexivity|].
    constructor; [done|]. apply Forall_app. split.
    + destruct (rx_ready inp); [|constructor].
      constructor; [done|]. constructor; [|constructor].
      constructor; [|by repeat constructor].
      apply c_str_bound. apply Hterm.
    + constructor; [done|]. eapply Forall_impl; [exact Hpr|].
      intros e. apply prints_at_most_mono. lia.
Qed.

Lemma run_loop_terminated (inp : nat -> tick_input) (n : nat) :
  forall (k : nat) (st : state),
    terminated (buffer st) ->
    Forall (prints_at_most (Z.to_nat SIZE)) (out st) ->
    exists st',
      run_loop SIZE char_signed PICO_ERROR_TIMEOUT n inp k st = Some st'
      /\ terminated (buffer st')
      /\ Forall (prints_at_most (Z.to_nat SIZE)) (out st').
Proof.
  induction n as [|n IH]; intros k st Hterm Hout; simpl; [by exists st|].
  destruct (loop_terminated (inp k) st Hterm) as (st1 & es & -> & Hterm1 & Ho & Hes).
  cbn [mbind option_bind]. apply IH; [done|].
  rewrite Ho. by apply Forall_app.
Qed.

Lemma main_terminated (fuel : nat) (si : setup_input) (inp : nat -> tick_input) :
  exists s st,
    main SIZE char_signed PICO_ERROR_TIMEOUT fuel si inp = Some (s, st)
    /\ terminated (buffer st)
    /\ Forall (prints_at_most (Z.to_nat SIZE)) (out st).
Proof.
  unfold main. cbv zeta.
  pose proof (setup_frame SIZE char_signed fuel si (emit stdio_init_all (boot SIZE)))
    as Hf. cbv zeta in Hf.
  destruct (setup SIZE char_signed fuel si _) as [r st]. cbn [fst snd] in Hf.
  destruct Hf as (_ & _ & Hb & es & Ho & Hes).
  assert (Hterm : terminated (buffer st)).
  { rewrite Hb. cbn [buffer emit boot]. split.
    - by rewrite length_insert, length_replicate.
    - apply list_lookup_insert_eq. rewrite length_replicate. lia. }
  assert (Hout : Forall (prints_at_most (Z.to_nat SIZE)) (out st)).
  { rewrite Ho. cbn [out emit boot]. apply Forall_app. split; [by repeat constructor|].
    eapply Forall_impl; [exact Hes|]. intros e. apply setup_event_prints. }
  destruct r as [[|]|].
  - destruct (run_loop_terminated inp fuel 0 st Hterm Hout) as (st' & -> & ? & ?).
    by exists Looping, st'.
  - by exists (Returned 0), st.
  - by exists Waiting, st.
Qed.

End Terminator.

(** C9 fails on the code for the length of the printed string.  A received
    payload with a NUL among its [SIZE] bytes prints as a shorter string: here 'A' 'A' 'A' NUL 'A' ... is printed as "AAA", three
    characters and not 32. *)
Lemma received_string_can_be_short :
  ~ Forall (prints_exactly 32)
      (out (receive_poll 32 false
              (TickInput (fun _ => true) true
                         (fun k => if (k =? 3)%nat then 0 else 65) (-1) 0 0)
              (State false (replicate 33 0) 0 true []))).
Proof.
  intros H. rewrite Forall_lookup in H.
  specialize (H 2%nat _ eq_refl). vm_compute in H.
  inversion H as [|a args Hlen _]. discriminate Hlen.
Qed.

(** That poll, call by call. *)
Example receive_poll_short_payload :
  out (receive_poll 32 false
         (TickInput (fun _ => true) true
                    (fun k => if (k =? 3)%nat then 0 else 65) (-1) 0 0)
         (State false (replicate 33 0) 0 true []))
  = [radio_available true;
     radio_read ([65; 65; 65; 0] ++ replicate 28 65) 32;
     printf "Received: %s - #d" [ArgStr [65; 65; 65]; ArgInt 0]].
Proof. vm_compute. reflexivity. Qed.

(** C9, as the code has it.  After [setup()] set it, the buffer keeps its
    NUL at index SIZE for as long as the program runs: [makePayload] writes
    no cell from SIZE on and a receive copies exactly SIZE bytes.  So every
    string printed from the buffer has at most SIZE characters; it has
    exactly SIZE of them when the payload holds no NUL, which is the case of
    every payload [makePayload] builds for a position below SIZE. *)
Theorem buffer_stays_terminated (SIZE : Z) (char_signed : bool)
    (PICO_ERROR_TIMEOUT : Z) :
  1 <= SIZE <= 32 ->
  (forall fuel si inp,
     exists s st,
       main SIZE char_signed PICO_ERROR_TIMEOUT fuel si inp = Some (s, st)
       /\ length (buffer st) = Z.to_nat (SIZE + 1)
       /\ buffer st !! Z.to_nat SIZE = Some 0
       /\ Forall (prints_at_most (Z.to_nat SIZE)) (out st))
  /\ (forall i buf k, (Z.to_nat SIZE <= k)%nat ->
        makePayload SIZE char_signed i buf !! k = buf !! k)
  /\ (forall payload buf k,
        length buf = Z.to_nat (SIZE + 1) -> (Z.to_nat SIZE <= k)%nat ->
        RF24_read char_signed payload SIZE buf !! k = buf !! k)
  /\ (forall i buf,
        0 <= i < SIZE -> terminated SIZE buf ->
        c_str (makePayload SIZE char_signed i buf)
        = take (Z.to_nat SIZE) (makePayload SIZE char_signed i buf)
        /\ length (c_str (makePayload SIZE char_signed i buf)) = Z.to_nat SIZE)
  /\ (forall payload buf,
        terminated SIZE buf ->
        (forall k, (k < Z.to_nat SIZE)%nat -> to_char char_signed (payload k) <> 0) ->
        c_str (RF24_read char_signed payload SIZE buf)
        = take (Z.to_nat SIZE) (RF24_read char_signed payload SIZE buf)
        /\ length (c_str (RF24_read char_signed payload SIZE buf)) = Z.to_nat SIZE).
Proof.
  intros HS. split; [|split; [|split; [|split]]].
  - intros fuel si inp.
    destruct (main_terminated SIZE char_signed PICO_ERROR_TIMEOUT HS fuel si inp)
      as (s & st & Hmain & [Hlen Hnul] & Hout).
    by exists s, st.
  - intros i buf k Hk. apply makePayload_beyond; lia.
  - intros payload buf k Hlen Hk. by apply RF24_read_beyond.
  - intros i buf Hi [Hlen Hnul].
    assert (Heq : c_str (makePayload SIZE char_signed i buf)
                  = take (Z.to_nat SIZE) (makePayload SIZE char_signed i buf)).
    { apply c_str_full.
      - intros k c Hk. by apply makePayload_no_nul.
      - rewrite makePayload_beyond by lia. done. }
    split; [done|]. rewrite Heq, length_take, makePayload_length. lia.
  - intros payload buf [Hlen Hnul] Hnz.
    assert (Heq : c_str (RF24_read char_signed payload SIZE buf)
                  = take (Z.to_nat SIZE) (RF24_read char_signed payload SIZE buf)).
    { apply c_str_full.
      - intros k c Hk. rewrite RF24_read_payload by done. intros [= <-]. by apply Hnz.
      - by rewrite RF24_read_beyond. }
    split; [done|]. rewrite Heq, length_take, RF24_read_length by done. lia.
Qed.

Lemma buffer_stays_terminated_witness :
  exists s st,
    main 32 false (-1) 3 (SetupInput (fun _ => true) true 49)
      (fun _ => TickInput (fun _ => true) true (fun _ => 65) (-1) 0 0)
    = Some (s, st)
    /\ buffer st !! 32%nat = Some 0.
Proof.
  destruct (proj1 (buffer_stays_terminated 32 false (-1) ltac:(lia)) 3%nat
              (SetupInput (fun _ => true) true 49)
              (fun _ => TickInput (fun _ => true) true (fun _ => 65) (-1) 0 0))
    as (s & st & Hmain & _ & Hnul & _).
  exists s, st. auto.
Defined.

(** ** The receipt counter *)

Section Receipts.

Variable SIZE : Z.
Variable char_signed : bool.
Variable PICO_ERROR_TIMEOUT : Z.

(** A receiver that reads neither 'T' nor 't' stays a receiver and keeps
    its counter. *)
Lemma change_role_stays_receiver (r : Z) (st : state) :
  role st = false ->
  to_char char_signed r <> 84 -> to_char char_signed r <> 116 ->
  role (change_role char_signed PICO_ERROR_TIMEOUT r st) = false
  /\ counter (change_role char_signed PICO_ERROR_TIMEOUT r st) = counter st.
Proof.
  intros Hrole HT Ht. unfold change_role. cbv zeta.
  destruct (Z.eqb_spec (to_char char_signed r) 84); [done|].
  destruct (Z.eqb_spec (to_char char_signed r) 116); [done|].
  cbn [role emit orb andb]. rewrite Hrole, andb_false_r.
  by destruct (negb _).
Qed.

(** One tick of a receiver with a payload waiting and no switch. *)
Lemma loop_counts (inp : tick_input) (st : state) :
  role st = false -> rx_ready inp = true ->
  to_char char_signed (key inp) <> 84 -> to_char char_signed (key inp) <> 116 ->
  exists st',
    loop SIZE char_signed PICO_ERROR_TIMEOUT inp st = Some st'
    /\ role st' = false
    /\ counter st' = uint8_t (counter st + 1).
Proof.
  intros Hrole Hready HT Ht. unfold loop. rewrite Hrole.
  eexists. split; [reflexivity|].
  destruct (receive_poll_frame SIZE char_signed inp st) as (Hr & _ & _ & Hc & _).
  rewrite Hready in Hc.
  destruct (change_role_stays_receiver (key inp) (receive_poll SIZE char_signed inp st))
    as [Hr' Hc']; [congruence|done..|].
  split; [done|congruence].
Qed.

Lemma run_loop_counts (inp : nat -> tick_input) (n : nat) :
  forall (k : nat) (st : state),
    role st = false -> 0 <= counter st < 256 ->
    (forall j, (j < n)%nat ->
       rx_ready (inp (k + j)%nat) = true
       /\ to_char char_signed (key (inp (k + j)%nat)) <> 84
       /\ to_char char_signed (key (inp (k + j)%nat)) <> 116) ->
    exists st',
      run_loop SIZE char_signed PICO_ERROR_TIMEOUT n inp k st = Some st'
      /\ role st' = false
      /\ counter st' = (counter st + Z.of_nat n) mod 256.
Proof.
  induction n as [|n IH]; intros k st Hrole Hc Hin.
  - exists st. simpl. do 2 (split; [done|]).
    rewrite Z.add_0_r, Z.mod_small; done.
  - destruct (Hin 0%nat ltac:(lia)) as (Hready & HT & Ht).
    rewrite Nat.add_0_r in Hready, HT, Ht.
    destruct (loop_counts (inp k) st Hrole Hready HT Ht) as (st1 & Hloop & Hr1 & Hc1).
    destruct (IH (S k) st1 Hr1) as (st' & Hrun & Hr' & Hc').
    { rewrite Hc1. unfold uint8_t. apply Z.mod_pos_bound. lia. }
    { intros j Hj. replace (S k + j)%nat with (k + S j)%nat by lia. apply Hin. lia. }
    exists st'. simpl. rewrite Hloop. cbn [mbind option_bind].
    do 2 (split; [done|]).
    rewrite Hc', Hc1. unfold uint8_t.
    rewrite Zplus_mod_idemp_l. f_equal. lia.
Qed.

End Receipts.

(** C10. The counter is an 8-bit unsigned integer: a received payload
    increments it modulo 256, so [n] consecutive receptions with no switch
    to the transmit role take it from [c] to [(c + n) mod 256]; after 256 of
    them a counter that started at 0 is 0 again. *)
Theorem counter_wraps_at_256 (SIZE : Z) (char_signed : bool)
    (PICO_ERROR_TIMEOUT : Z) (inp : nat -> tick_input) (n k : nat) (st : state) :
  role st = false -> 0 <= counter st < 256 ->
  (forall j, (j < n)%nat ->
     rx_ready (inp (k + j)%nat) = true
     /\ to_char char_signed (key (inp (k + j)%nat)) <> 84
     /\ to_char char_signed (key (inp (k + j)%nat)) <> 116) ->
  (forall i st0, rx_ready i = true ->
     counter (receive_poll SIZE char_signed i st0) = (counter st0 + 1) mod 256)
  /\ exists st',
       run_loop SIZE char_signed PICO_ERROR_TIMEOUT n inp k st = Some st'
       /\ role st' = false
       /\ counter st' = (counter st + Z.of_nat n) mod 256
       /\ 0 <= counter st' < 256
       /\ (n = 256%nat -> counter st = 0 -> counter st' = 0).
Proof.
  intros Hrole Hc Hin. split.
  - intros i st0 Hready.
    destruct (receive_poll_frame SIZE char_signed i st0) as (_ & _ & _ & Hcount & _).
    by rewrite Hcount, Hready.
  - destruct (run_loop_counts SIZE char_signed PICO_ERROR_TIMEOUT inp n k st Hrole Hc Hin)
      as (st' & Hrun & Hr' & Hc').
    exists st'. do 3 (split; [done|]). split.
    + rewrite Hc'. apply Z.mod_pos_bound. lia.
    + intros -> Hzero. by rewrite Hc', Hzero.
Qed.

Lemma counter_wraps_at_256_witness :
  exists st',
    run_loop 32 false (-1) 256
      (fun _ => TickInput (fun _ => true) true (fun _ => 65) (-1) 0 0) 0
      (State false (replicate 33 0) 0 true []) = Some st'
    /\ counter st' = 0.
Proof.
  destruct (proj2 (counter_wraps_at_256 32 false (-1)
              (fun _ => TickInput (fun _ => true) true (fun _ => 65) (-1) 0 0)
              256 0 (State false (replicate 33 0) 0 true [])
              eq_refl ltac:(simpl; lia)
              ltac:(intros j Hj; repeat split; vm_compute; discriminate)))
    as (st' & Hrun & _ & _ & _ & Hwrap).
  exists st'. split; [exact Hrun|]. by apply Hwrap.
Defined.

(** ** Runs of the whole program *)

(** Radio present, node 1: [setup()] call by call, then one idle tick of the
    receiver. *)
Example main_first_tick :
  main 32 false (-1) 1 (SetupInput (fun _ => true) true 49)
    (fun _ => TickInput (fun _ => true) false (fun _ => 0) (-1) 0 0)
  = Some (Looping,
          State false (replicate 33 0) 0 true
            [stdio_init_all;
             tud_cdc_connected true;
             radio_begin true;
             printf "RF24/examples_pico/streamingData" [];
             printf "Which radio is this? Enter '0' or '1'. Defaults to '0' " [];
             getchar 49;
             printf "radioNumber = %d\n" [ArgInt 1];
             radio_setPALevel RF24_PA_LOW;
             radio_setPayloadSize 32;
             radio_openWritingPipe "2Node";
             radio_openReadingPipe 1 "1Node";
             radio_startListening;
             radio_printPrettyDetails;
             printf "*** PRESS 'T' to begin transmitting to the other node\n" [];
             radio_available false;
             getchar_timeout_us 500 (-1)]).
Proof. vm_compute. reflexivity. Qed.

(** Three payloads arrive in three ticks: the counter goes 1, 2, 3. *)
Example three_receptions :
  (fun n => counter <$> run_loop 32 false (-1) n
              (fun _ => TickInput (fun _ => true) true (fun _ => 65) (-1) 0 0) 0
              (State false (replicate 33 0) 0 true []))
    <$> [1; 2; 3]%nat
  = [Some 1; Some 2; Some 3].
Proof. vm_compute. reflexivity. Qed.

(** 't' read by a receiver, then 't' again: the first switches the role, the
    second only finds a stream of 32 payloads sent in between. *)
Example switch_then_repeat :
  (fun st => (role st, counter st, listening st,
              filter (fun e => negb (is_stream_event e)) (out st)))
    <$> run_loop 32 false (-1) 2
          (fun _ => TickInput (fun _ => true) false (fun _ => 0) 116 0 7) 0
          (State false (replicate 33 0) 9 true [])
  = Some (true, 0, false,
          [radio_available false;
           getchar_timeout_us 500 116;
           radio_stopListening;
           getchar_timeout_us 500 116]).
Proof. vm_compute. reflexivity. Qed.

(** * Further properties of the code *)

(** ** The payload as a whole *)

Section PayloadShape.

Variable SIZE : Z.
Variable char_signed : bool.
Hypothesis SIZE_range : 1 <= SIZE <= 32.

(** Every cell of the buffer after [makePayload]: the marker, the digits,
    and from [SIZE] on what was there. *)
Lemma makePayload_cells (i : Z) (buf : list Z) (k : nat) :
  length buf = Z.to_nat (SIZE + 1) ->
  makePayload SIZE char_signed i buf !! k =
  match k with
  | O => Some (to_char char_signed (i + (if i <? 26 then 65 else 71)))
  | S k' => if decide (k < Z.to_nat SIZE)%nat
            then Some (chevron SIZE char_signed i (Z.of_nat k'))
            else buf !! k
  end.
Proof.
  intros Hlen. destruct k as [|k'].
  - apply makePayload_marker. lia.
  - destruct (decide (S k' < Z.to_nat SIZE)%nat) as [Hk|Hk].
    + replace (S k') with (Z.to_nat (Z.of_nat k' + 1)) by lia.
      rewrite makePayload_digit by lia. done.
    + apply makePayload_beyond; lia.
Qed.

(** The first SIZE cells do not depend on what the buffer held. *)
Lemma makePayload_same_bytes (i : Z) (buf1 buf2 : list Z) :
  length buf1 = Z.to_nat (SIZE + 1) -> length buf2 = Z.to_nat (SIZE + 1) ->
  take (Z.to_nat SIZE) (makePayload SIZE char_signed i buf1)
  = take (Z.to_nat SIZE) (makePayload SIZE char_signed i buf2).
Proof.
  intros Hl1 Hl2. apply list_eq. intros k.
  destruct (decide (k < Z.to_nat SIZE)%nat) as [Hk|Hk].
  - rewrite !lookup_take_lt by done.
    rewrite !makePayload_cells by done.
    destruct k; [done|]. by rewrite !decide_True by done.
  - rewrite !lookup_take_ge by lia. done.
Qed.


Lemma chevron_by_distance (i i' j : Z) :
  Z.abs (mid SIZE - i) = Z.abs (mid SIZE - i') ->
  chevron SIZE char_signed i j = chevron SIZE char_signed i' j.
Proof. intros H. unfold chevron. by rewrite H. Qed.

End PayloadShape.

(** X1. A payload depends on the stream position alone: [makePayload]
    overwrites all of the first SIZE cells, so two buffers hold the same
    SIZE bytes after it whatever they held before, and building the payload
    of [i] over the payload of [i'] gives the buffer that building it
    directly gives. *)
Theorem makePayload_overwrites (SIZE : Z) (char_signed : bool)
    (i i' : Z) (buf1 buf2 : list Z) :
  1 <= SIZE <= 32 ->
  length buf1 = Z.to_nat (SIZE + 1) -> length buf2 = Z.to_nat (SIZE + 1) ->
  take (Z.to_nat SIZE) (makePayload SIZE char_signed i buf1)
  = take (Z.to_nat SIZE) (makePayload SIZE char_signed i buf2)
  /\ makePayload SIZE char_signed i (makePayload SIZE char_signed i' buf1)
     = makePayload SIZE char_signed i buf1.
Proof.
  intros HS Hl1 Hl2. split.
  - by apply makePayload_same_bytes.
  - apply list_eq. intros k.
    rewrite !makePayload_cells by (by rewrite ?makePayload_length).
    destruct k; [done|]. by destruct (decide _).
Qed.

Lemma makePayload_overwrites_witness :
  take 32 (makePayload 32 false 7 (replicate 33 0))
  = take 32 (makePayload 32 false 7 (replicate 33 65))
  /\ makePayload 32 false 7 (makePayload 32 false 20 (replicate 33 0))
     = makePayload 32 false 7 (replicate 33 0).
Proof.
  exact (makePayload_overwrites 32 false 7 20 (replicate 33 0) (replicate 33 65)
           ltac:(lia) eq_refl eq_refl).
Defined.

(** X2. The digits mirror around the midpoint of the stream: two positions
    at the same distance from [(SIZE - 1) / 2] give the same bytes 1 to
    SIZE - 1, so only the marker tells them apart. *)
Theorem makePayload_mirror (SIZE : Z) (char_signed : bool)
    (i i' : Z) (buf1 buf2 : list Z) :
  1 <= SIZE <= 32 ->
  length buf1 = Z.to_nat (SIZE + 1) -> length buf2 = Z.to_nat (SIZE + 1) ->
  Z.abs ((SIZE - 1) / 2 - i) = Z.abs ((SIZE - 1) / 2 - i') ->
  drop 1 (take (Z.to_nat SIZE) (makePayload SIZE char_signed i buf1))
  = drop 1 (take (Z.to_nat SIZE) (makePayload SIZE char_signed i' buf2)).
Proof.
  intros HS Hl1 Hl2 Hd. rewrite <- !mid_div in Hd by lia.
  apply list_eq. intros k. rewrite !lookup_drop.
  destruct (decide (1 + k < Z.to_nat SIZE)%nat) as [Hk|Hk].
  - rewrite !lookup_take_lt by done.
    rewrite !makePayload_cells by done. cbn [Nat.add].
    rewrite !decide_True by done. f_equal. by apply chevron_by_distance.
  - rewrite !lookup_take_ge by lia. done.
Qed.

Lemma makePayload_mirror_witness :
  drop 1 (take 32 (makePayload 32 false 3 (replicate 33 0)))
  = drop 1 (take 32 (makePayload 32 false 27 (replicate 33 0))).
Proof.
  exact (makePayload_mirror 32 false 3 27 (replicate 33 0) (replicate 33 0)
           ltac:(lia) eq_refl eq_refl eq_refl).
Defined.

(** X3. The '0' digits of a payload form one block around the midpoint that
    widens with the distance of the position from the midpoint: a cell
    between two '0' cells is '0', a '0' of a position is a '0' of every
    position at least as far from the midpoint, and at the midpoint itself
    every digit is '1'. *)
Theorem makePayload_band_widens (SIZE : Z) (char_signed : bool)
    (buf1 buf2 : list Z) :
  1 <= SIZE <= 32 ->
  length buf1 = Z.to_nat (SIZE + 1) -> length buf2 = Z.to_nat (SIZE + 1) ->
  (forall i j1 j j2,
     0 <= j1 <= j -> j <= j2 < SIZE - 1 ->
     makePayload SIZE char_signed i buf1 !! Z.to_nat (j1 + 1) = Some 48 ->
     makePayload SIZE char_signed i buf1 !! Z.to_nat (j2 + 1) = Some 48 ->
     makePayload SIZE char_signed i buf1 !! Z.to_nat (j + 1) = Some 48)
  /\ (forall i1 i2 j,
        0 <= j < SIZE - 1 ->
        Z.abs ((SIZE - 1) / 2 - i1) <= Z.abs ((SIZE - 1) / 2 - i2) ->
        makePayload SIZE char_signed i1 buf1 !! Z.to_nat (j + 1) = Some 48 ->
        makePayload SIZE char_signed i2 buf2 !! Z.to_nat (j + 1) = Some 48)
  /\ (forall j,
        0 <= j < SIZE - 1 ->
        makePayload SIZE char_signed ((SIZE - 1) / 2) buf1 !! Z.to_nat (j + 1)
        = Some 49).
Proof.
  intros HS Hl1 Hl2.
  assert (Hdigit : forall i j buf, 0 <= j < SIZE - 1 ->
            length buf = Z.to_nat (SIZE + 1) ->
            makePayload SIZE char_signed i buf !! Z.to_nat (j + 1)
            = Some (Z.b2z ((j >=? (SIZE - 1) / 2 + Z.abs ((SIZE - 1) / 2 - i))
                           || (j <? (SIZE - 1) / 2 - Z.abs ((SIZE - 1) / 2 - i))) + 48)).
  { intros i j buf Hj Hlen. rewrite makePayload_digit by lia.
    by rewrite chevron_digit, lor_b2z, mid_div by lia. }
  split; [|split].
  - intros i j1 j j2 H1 H2. rewrite !Hdigit by lia. intros [= E1] [= E2]. f_equal.
    destruct (Z.geb_spec j1 ((SIZE - 1) / 2 + Z.abs ((SIZE - 1) / 2 - i))),
             (Z.ltb_spec j1 ((SIZE - 1) / 2 - Z.abs ((SIZE - 1) / 2 - i)));
      simpl in E1; try lia.
    destruct (Z.geb_spec j2 ((SIZE - 1) / 2 + Z.abs ((SIZE - 1) / 2 - i))),
             (Z.ltb_spec j2 ((SIZE - 1) / 2 - Z.abs ((SIZE - 1) / 2 - i)));
      simpl in E2; try lia.
    destruct (Z.geb_spec j ((SIZE - 1) / 2 + Z.abs ((SIZE - 1) / 2 - i))),
             (Z.ltb_spec j ((SIZE - 1) / 2 - Z.abs ((SIZE - 1) / 2 - i)));
      simpl; lia.
  - intros i1 i2 j Hj Hd. rewrite !Hdigit by lia. intros [= E1]. f_equal.
    destruct (Z.geb_spec j ((SIZE - 1) / 2 + Z.abs ((SIZE - 1) / 2 - i1))),
             (Z.ltb_spec j ((SIZE - 1) / 2 - Z.abs ((SIZE - 1) / 2 - i1)));
      simpl in E1; try lia.
    destruct (Z.geb_spec j ((SIZE - 1) / 2 + Z.abs ((SIZE - 1) / 2 - i2))),
             (Z.ltb_spec j ((SIZE - 1) / 2 - Z.abs ((SIZE - 1) / 2 - i2)));
      simpl; lia.
  - intros j Hj. rewrite Hdigit by lia. f_equal.
    rewrite Z.sub_diag. change (Z.abs 0) with 0.
    destruct (Z.geb_spec j ((SIZE - 1) / 2 + 0)),
             (Z.ltb_spec j ((SIZE - 1) / 2 - 0)); simpl; lia.
Qed.

Lemma makePayload_band_widens_witness :
  makePayload 32 false 15 (replicate 33 0) !! 16%nat = Some 49
  /\ (makePayload 32 false 14 (replicate 33 0) !! 15%nat = Some 48 ->
      makePayload 32 false 20 (replicate 33 7) !! 15%nat = Some 48).
Proof.
  pose proof (makePayload_band_widens 32 false (replicate 33 0) (replicate 33 7)
                ltac:(lia) eq_refl eq_refl) as (_ & Hwiden & Hmid).
  split.
  - exact (Hmid 15 ltac:(lia)).
  - exact (Hwiden 14 20 14 ltac:(lia) ltac:(apply Z.leb_le; reflexivity)).
Defined.

(** ** The calls of a transmit cycle *)

Lemma writes_app (es1 es2 : list event) : writes (es1 ++ es2) = writes es1 ++ writes es2.
Proof. apply omap_app. Qed.

Lemma reuses_app (es1 es2 : list event) : reuses (es1 ++ es2) = (reuses es1 + reuses es2)%nat.
Proof. unfold reuses. by rewrite omap_app, length_app. Qed.

Lemma sent_app (es1 es2 : list event) : sent (es1 ++ es2) = sent es1 ++ sent es2.
Proof. unfold sent. by rewrite writes_app, filter_app, fmap_app. Qed.

Section StreamTrace.

Variable SIZE : Z.
Variable char_signed : bool.
Hypothesis SIZE_range : 1 <= SIZE <= 32.

(** The calls of one iteration. *)
Lemma send_body_trace (ok : nat -> bool) (l : tx_locals) (st : state) :
  0 <= tx_i l < SIZE -> 0 <= failures l < 100 ->
  length (buffer st) = Z.to_nat (SIZE + 1) ->
  exists l1 st1 stop es,
    send_body SIZE char_signed ok l st = (l1, st1, stop)
    /\ out st1 = out st ++ es
    /\ buffer st1 = makePayload SIZE char_signed (tx_i l) (buffer st)
    /\ writes es = [(take (Z.to_nat SIZE) (makePayload SIZE char_signed (tx_i l) (buffer st)),
                     ok (sends l))]
    /\ reuses es = (if ok (sends l) then 0 else 1)%nat
    /\ sends l1 = S (sends l)
    /\ tx_i l1 = tx_i l + (if ok (sends l) then 1 else 0)
    /\ failures l1 = failures l + (if ok (sends l) then 0 else 1)
    /\ (stop = true <-> failures l1 = 100)
    /\ (stop = true ->
        last es = Some (printf "Too many failures detected. Aborting at payload %c"
                          [ArgChar (to_char char_signed
                                      (tx_i l1 + (if tx_i l1 <? 26 then 65 else 71)))])).
Proof.
  intros Hi Hf Hlen. unfold send_body. cbv zeta.
  destruct (ok (sends l)); cbn [negb tx_i failures sends].
  - destruct (Z.geb_spec (failures l) 100); [lia|].
    eexists _, _, _, _. split; [reflexivity|].
    cbn [out emit buffer set_buffer tx_i failures sends].
    split; [reflexivity|]. split; [reflexivity|]. split; [reflexivity|].
    split; [reflexivity|]. split; [reflexivity|].
    unfold uint8_t. rewrite Z.mod_small by lia.
    split; [reflexivity|]. split; [lia|]. split; [split; [discriminate|lia]|].
    discriminate.
  - unfold uint8_t. rewrite Z.mod_small by lia.
    destruct (Z.geb_spec (failures l + 1) 100).
    + eexists _, _, _, _. split; [reflexivity|].
      cbn [out emit buffer set_buffer tx_i failures sends].
      rewrite <- !app_assoc. split; [reflexivity|].
      split; [reflexivity|]. split; [reflexivity|]. split; [reflexivity|].
      split; [reflexivity|]. split; [lia|]. split; [lia|].
      split; [split; [lia|done]|].
      intros _. cbn [app last]. do 3 f_equal.
      rewrite makePayload_marker by lia. reflexivity.
    + eexists _, _, _, _. split; [reflexivity|].
      cbn [out emit buffer set_buffer tx_i failures sends].
      rewrite <- !app_assoc. split; [reflexivity|].
      split; [reflexivity|]. split; [reflexivity|]. split; [reflexivity|].
      split; [reflexivity|]. split; [lia|]. split; [lia|].
      split; [split; [discriminate|lia]|]. discriminate.
Qed.

(** The calls of the loop.  The [k]-th send carries the payload of the
    position reached by the successes before it. *)
Lemma send_while_trace (ok : nat -> bool) (buf0 : list Z) (fuel : nat) :
  length buf0 = Z.to_nat (SIZE + 1) ->
  forall (l l' : tx_locals) (st st' : state),
    0 <= tx_i l -> 0 <= failures l < 100 ->
    length (buffer st) = Z.to_nat (SIZE + 1) ->
    send_while SIZE char_signed fuel ok l st = Some (l', st') ->
    exists es (n : nat),
      out st' = out st ++ es
      /\ sends l' = (sends l + n)%nat
      /\ writes es =
         (fun k => (take (Z.to_nat SIZE)
                      (makePayload SIZE char_signed
                         (tx_i l + Z.of_nat (successes ok (sends l) (k - sends l))) buf0),
                    ok k)) <$> seq (sends l) n
      /\ tx_i l' = tx_i l + Z.of_nat (successes ok (sends l) n)
      /\ failures l' = failures l + Z.of_nat n - Z.of_nat (successes ok (sends l) n)
      /\ Z.of_nat (reuses es) = Z.of_nat n - Z.of_nat (successes ok (sends l) n)
      /\ (failures l' = 100 ->
          last es = Some (printf "Too many failures detected. Aborting at payload %c"
                            [ArgChar (to_char char_signed
                                        (tx_i l' + (if tx_i l' <? 26 then 65 else 71)))])).
Proof.
  intros Hl0.
  induction fuel as [|fuel IH]; intros l l' st st' Hi Hf Hlen; simpl;
    destruct (Z.ltb_spec (tx_i l) SIZE) as [Hlt|Hge]; try discriminate.
  1,3: intros [= <- <-]; exists [], 0%nat; rewrite app_nil_r, Nat.add_0_r; simpl;
       repeat split; try done; lia.
  destruct (send_body_trace ok l st) as
    (l1 & st1 & stop & es & Hbody & Ho & Hb & Hw & Hr & Hs & Hi1 & Hf1 & Hstop & Hlast);
    [lia..|done|].
  rewrite Hbody.
  assert (Hpay : take (Z.to_nat SIZE) (makePayload SIZE char_signed (tx_i l) (buffer st))
                 = take (Z.to_nat SIZE) (makePayload SIZE char_signed (tx_i l) buf0))
    by (by apply makePayload_same_bytes).
  destruct stop.
  - intros [= <- <-]. exists es, 1%nat.
    split; [done|]. split; [lia|].
    split; [simpl; rewrite Hw, Hpay, Nat.sub_diag; simpl; by rewrite Z.add_0_r|].
    simpl. destruct (ok (sends l)); repeat split; try lia. all: by auto.
  - intros Hrest. apply IH in Hrest as
      (es' & n & Ho' & Hs' & Hw' & Hi' & Hf' & Hr' & Hlast'); cycle 1.
    { destruct (ok (sends l)); lia. }
    { assert (failures l1 <> 100) by (intros Heq; by apply Hstop in Heq).
      destruct (ok (sends l)); lia. }
    { rewrite Hb. by rewrite makePayload_length. }
    exists (es ++ es'), (S n).
    split; [by rewrite Ho', Ho, app_assoc|]. split; [lia|].
    split.
    { rewrite writes_app, Hw, Hw', Hpay. simpl. rewrite Nat.sub_diag. simpl.
      rewrite Z.add_0_r. f_equal. rewrite Hs. apply list_fmap_ext.
      intros j k Hk. apply lookup_seq in Hk as [-> Hj].
      replace (S (sends l) + j - sends l)%nat with (S j) by lia.
      replace (S (sends l) + j - S (sends l))%nat with j by lia.
      simpl. rewrite Hi1. do 3 f_equal. destruct (ok (sends l)); lia. }
    rewrite Hs in *. simpl.
    split; [destruct (ok (sends l)); lia|].
    split; [destruct (ok (sends l)); lia|].
    split; [rewrite reuses_app, Hr; destruct (ok (sends l)); lia|].
    intros H100. specialize (Hlast' H100). rewrite last_app, Hlast'. done.
Qed.

(** The sends that succeed carry the payloads of the positions passed, in
    order. *)
Lemma send_while_sent (ok : nat -> bool) (buf0 : list Z) (fuel : nat) :
  length buf0 = Z.to_nat (SIZE + 1) ->
  forall (l l' : tx_locals) (st st' : state),
    0 <= tx_i l -> 0 <= failures l < 100 ->
    length (buffer st) = Z.to_nat (SIZE + 1) ->
    send_while SIZE char_signed fuel ok l st = Some (l', st') ->
    exists es,
      out st' = out st ++ es
      /\ tx_i l <= tx_i l'
      /\ sent es = (fun p => take (Z.to_nat SIZE) (makePayload SIZE char_signed p buf0))
                   <$> seqZ (tx_i l) (tx_i l' - tx_i l).
Proof.
  intros Hl0.
  induction fuel as [|fuel IH]; intros l l' st st' Hi Hf Hlen; simpl;
    destruct (Z.ltb_spec (tx_i l) SIZE) as [Hlt|Hge]; try discriminate.
  1,3: intros [= <- <-]; exists []; rewrite app_nil_r, Z.sub_diag;
       split; [done|]; split; [lia|done].
  destruct (send_body_trace ok l st) as
    (l1 & st1 & stop & es & Hbody & Ho & Hb & Hw & Hr & Hs & Hi1 & Hf1 & Hstop & Hlast);
    [lia..|done|].
  rewrite Hbody.
  assert (Hpay : take (Z.to_nat SIZE) (makePayload SIZE char_signed (tx_i l) (buffer st))
                 = take (Z.to_nat SIZE) (makePayload SIZE char_signed (tx_i l) buf0))
    by (by apply makePayload_same_bytes).
  assert (Hsent : sent es = (fun p => take (Z.to_nat SIZE)
                                        (makePayload SIZE char_signed p buf0))
                            <$> seqZ (tx_i l) (tx_i l1 - tx_i l)).
  { unfold sent. rewrite Hw, Hpay, Hi1. destruct (ok (sends l)).
    - replace (tx_i l + 1 - tx_i l) with 1 by lia. done.
    - rewrite Z.add_0_r, Z.sub_diag. done. }
  destruct stop.
  - intros [= <- <-]. exists es. split; [done|]. split; [|done].
    destruct (ok (sends l)); lia.
  - intros Hrest. apply IH in Hrest as (es' & Ho' & Hle & Hs'); cycle 1.
    { destruct (ok (sends l)); lia. }
    { assert (failures l1 <> 100) by (intros Heq; by apply Hstop in Heq).
      destruct (ok (sends l)); lia. }
    { rewrite Hb. by rewrite makePayload_length. }
    exists (es ++ es'). split; [by rewrite Ho', Ho, app_assoc|].
    split; [destruct (ok (sends l)); lia|].
    rewrite sent_app, Hsent, Hs', <- fmap_app. f_equal.
    replace (tx_i l' - tx_i l) with ((tx_i l1 - tx_i l) + (tx_i l' - tx_i l1)) by lia.
    rewrite seqZ_app by (destruct (ok (sends l)); lia).
    do 2 f_equal. lia.
Qed.

End StreamTrace.

(** Calls around the loop that neither send nor re-arm do not count. *)
Lemma writes_framed (pre es post : list event) :
  writes pre = [] -> writes post = [] -> writes (pre ++ es ++ post) = writes es.
Proof. intros H1 H2. by rewrite !writes_app, H1, H2, app_nil_r. Qed.

Lemma sent_framed (pre es post : list event) :
  writes pre = [] -> writes post = [] -> sent (pre ++ es ++ post) = sent es.
Proof. intros H1 H2. unfold sent. by rewrite writes_framed. Qed.

Lemma reuses_framed (pre es post : list event) :
  reuses pre = 0%nat -> reuses post = 0%nat -> reuses (pre ++ es ++ post) = reuses es.
Proof. intros H1 H2. rewrite !reuses_app, H1, H2. lia. Qed.

(** The sends that failed, counted on the list of sends. *)
Lemma failed_sends_count (ok : nat -> bool) (g : nat -> list Z) (n : nat) :
  forall s : nat,
    length (filter (fun w : list Z * bool => w.2 = false)
              ((fun k => (g k, ok k)) <$> seq s n))
    = (n - successes ok s n)%nat.
Proof.
  induction n as [|n IH]; intros s; [done|]. cbn [seq fmap list_fmap successes].
  assert (Hle : forall s', (successes ok s' n <= n)%nat).
  { clear. induction n as [|n IH]; intros s'; simpl; [lia|].
    specialize (IH (S s')). destruct (ok s'); lia. }
  specialize (Hle (S s)). specialize (IH (S s)).
  destruct (ok s) eqn:Hok.
  - rewrite filter_cons_False by (simpl; congruence). rewrite IH. lia.
  - rewrite filter_cons_True by done. simpl. rewrite IH. lia.
Qed.

Section StreamCycle.

Variable SIZE : Z.
Variable char_signed : bool.
Hypothesis SIZE_range : 1 <= SIZE <= 32.

(** A transmit cycle, call by call: the flush, the clock, the sends [es] of
    the loop, the clock, the report and the settling delay. *)
Lemma transmit_stream_trace (inp : tick_input) (st : state) :
  length (buffer st) = Z.to_nat (SIZE + 1) ->
  exists st' es (n : nat) p f,
    transmit_stream SIZE char_signed inp st = Some st'
    /\ out st' = out st
         ++ [radio_flush_tx; to_us_since_boot (t_start inp)]
         ++ es
         ++ [to_us_since_boot (t_end inp);
             printf "Time to transmit = %d us with %d failures detected"
                    [ArgInt (uint64_t (t_end inp - t_start inp)); ArgInt f];
             sleep_ms 500]
    /\ Z.of_nat n <= SIZE + 100
    /\ p = Z.of_nat (successes (tx_ok inp) 0 n)
    /\ f = Z.of_nat n - p
    /\ (p = SIZE /\ 0 <= f < 100 \/ f = 100 /\ 0 <= p < SIZE)
    /\ writes es =
       (fun k => (take (Z.to_nat SIZE)
                    (makePayload SIZE char_signed
                       (Z.of_nat (successes (tx_ok inp) 0 k)) (buffer st)),
                  tx_ok inp k)) <$> seq 0 n
    /\ sent es = (fun q => take (Z.to_nat SIZE)
                             (makePayload SIZE char_signed q (buffer st)))
                 <$> seqZ 0 p
    /\ Z.of_nat (reuses es) = f
    /\ (f = 100 ->
        last es = Some (printf "Too many failures detected. Aborting at payload %c"
                          [ArgChar (to_char char_signed
                                      (p + (if p <? 26 then 65 else 71)))])).
Proof.
  intros Hlen. unfold transmit_stream. cbv zeta.
  set (st0 := emit (to_us_since_boot (t_start inp)) (emit radio_flush_tx st)).
  destruct (send_while_exits SIZE char_signed SIZE_range (tx_ok inp)
              (Z.to_nat SIZE + 99) (TxLocals 0 0 0) st0)
    as (n & l' & st1 & Hn & Hsome & _ & Hsends & Hcount & Hend);
    cbn [tx_i failures]; try lia.
  rewrite (Hsome (send_fuel SIZE)) by (unfold send_fuel; lia).
  pose proof (Hsome n (Nat.le_refl n)) as Hrun.
  destruct (send_while_trace SIZE char_signed SIZE_range (tx_ok inp) (buffer st) n Hlen
              (TxLocals 0 0 0) l' st0 st1 ltac:(simpl; lia) ltac:(simpl; lia) Hlen Hrun)
    as (es & n' & Ho & Hs & Hw & Hi & Hf & Hr & Hlast).
  destruct (send_while_sent SIZE char_signed SIZE_range (tx_ok inp) (buffer st) n Hlen
              (TxLocals 0 0 0) l' st0 st1 ltac:(simpl; lia) ltac:(simpl; lia) Hlen Hrun)
    as (es2 & Ho2 & _ & Hsent).
  rewrite Ho in Ho2. apply app_inv_head in Ho2 as <-.
  cbn [tx_i failures sends] in *.
  assert (n' = n) as -> by lia.
  exists (emit (sleep_ms 500)
            (emit (printf "Time to transmit = %d us with %d failures detected"
                          [ArgInt (uint64_t (t_end inp - t_start inp));
                           ArgInt (failures l')])
                  (emit (to_us_since_boot (t_end inp)) st1))),
    es, n, (tx_i l'), (failures l').
  split; [reflexivity|]. cbn [out emit]. rewrite Ho. subst st0. cbn [out emit].
  split; [by rewrite <- !app_assoc|].
  split; [lia|]. split; [lia|]. split; [lia|]. split; [lia|].
  split.
  { rewrite Hw. apply list_fmap_ext. intros j k Hk. by rewrite Nat.sub_0_r. }
  split; [by rewrite Hsent, Z.sub_0_r|].
  split; [lia|done].
Qed.

End StreamCycle.

(** X4. In a transmit cycle the payloads that get sent are those of the
    positions 0, 1, ..., p - 1, in this order and once each: none is
    skipped, none is sent twice.  Either all SIZE of them are sent, or the
    cycle made 100 calls of [reUseTX] and stopped at a position p below
    SIZE. *)
Theorem stream_sends_in_order (SIZE : Z) (char_signed : bool)
    (inp : tick_input) (st : state) :
  1 <= SIZE <= 32 -> length (buffer st) = Z.to_nat (SIZE + 1) ->
  exists st' es p,
    transmit_stream SIZE char_signed inp st = Some st'
    /\ out st' = out st ++ es
    /\ sent es = (fun q => take (Z.to_nat SIZE)
                             (makePayload SIZE char_signed q (buffer st)))
                 <$> seqZ 0 p
    /\ (p = SIZE /\ (reuses es < 100)%nat \/ 0 <= p < SIZE /\ reuses es = 100%nat).
Proof.
  intros HS Hlen.
  destruct (transmit_stream_trace SIZE char_signed HS inp st Hlen)
    as (st' & es & n & p & f & Hrun & Ho & _ & _ & _ & Hend & _ & Hsent & Hr & _).
  eexists st', _, p. split; [done|]. split; [exact Ho|].
  rewrite sent_framed, reuses_framed by done. split; [done|]. lia.
Qed.

Lemma stream_sends_in_order_witness :
  exists st' es p,
    transmit_stream 32 false (TickInput (fun k => Nat.even k) false (fun _ => 0) (-1) 0 9)
      (State true (replicate 33 0) 0 false []) = Some st'
    /\ out st' = [] ++ es
    /\ sent es = (fun q => take 32 (makePayload 32 false q (replicate 33 0))) <$> seqZ 0 p
    /\ (p = 32 /\ (reuses es < 100)%nat \/ 0 <= p < 32 /\ reuses es = 100%nat).
Proof.
  exact (stream_sends_in_order 32 false
           (TickInput (fun k => Nat.even k) false (fun _ => 0) (-1) 0 9)
           (State true (replicate 33 0) 0 false []) ltac:(lia) eq_refl).
Defined.

(** X5. Every send of a cycle carries the payload of the position that the
    successful sends before it have reached: after a failure the same
    payload is tried again, after a success the next one, and a cycle makes
    at most SIZE + 100 sends. *)
Theorem stream_retries_same_payload (SIZE : Z) (char_signed : bool)
    (inp : tick_input) (st : state) :
  1 <= SIZE <= 32 -> length (buffer st) = Z.to_nat (SIZE + 1) ->
  exists st' es (n : nat),
    transmit_stream SIZE char_signed inp st = Some st'
    /\ out st' = out st ++ es
    /\ Z.of_nat n <= SIZE + 100
    /\ writes es =
       (fun k => (take (Z.to_nat SIZE)
                    (makePayload SIZE char_signed
                       (Z.of_nat (successes (tx_ok inp) 0 k)) (buffer st)),
                  tx_ok inp k)) <$> seq 0 n.
Proof.
  intros HS Hlen.
  destruct (transmit_stream_trace SIZE char_signed HS inp st Hlen)
    as (st' & es & n & p & f & Hrun & Ho & Hn & _ & _ & _ & Hw & _).
  eexists st', _, n. split; [done|]. split; [exact Ho|]. split; [done|].
  by rewrite writes_framed.
Qed.

Lemma stream_retries_same_payload_witness :
  exists st' es (n : nat),
    transmit_stream 32 false (TickInput (fun k => Nat.even k) false (fun _ => 0) (-1) 0 9)
      (State true (replicate 33 0) 0 false []) = Some st'
    /\ out st' = [] ++ es
    /\ Z.of_nat n <= 32 + 100
    /\ writes es =
       (fun k => (take 32 (makePayload 32 false
                             (Z.of_nat (successes (fun k => Nat.even k) 0 k))
                             (replicate 33 0)),
                  Nat.even k)) <$> seq 0 n.
Proof.
  exact (stream_retries_same_payload 32 false
           (TickInput (fun k => Nat.even k) false (fun _ => 0) (-1) 0 9)
           (State true (replicate 33 0) 0 false []) ltac:(lia) eq_refl).
Defined.

(** X6. The failure count that a cycle hands to its report (the last
    argument of the [printf] call of line 127, which is the last call of the
    cycle but for [sleep_ms(500)]) is the number of its sends that failed and
    the number of its [reUseTX] calls, and it is at most 100.  The theorem is
    about the arguments passed; what the terminal shows for them is not
    modelled, since the format gives a %d to the 64-bit time difference. *)
Theorem stream_failures_accounted (SIZE : Z) (char_signed : bool)
    (inp : tick_input) (st : state) :
  1 <= SIZE <= 32 -> length (buffer st) = Z.to_nat (SIZE + 1) ->
  exists st' es f,
    transmit_stream SIZE char_signed inp st = Some st'
    /\ out st' = out st ++ es
    /\ (exists pre,
          es = pre ++ [printf "Time to transmit = %d us with %d failures detected"
                              [ArgInt ((t_end inp - t_start inp) mod 2 ^ 64); ArgInt f];
                       sleep_ms 500])
    /\ 0 <= f <= 100
    /\ Z.of_nat (reuses es) = f
    /\ Z.of_nat (length (filter (fun w => w.2 = false) (writes es))) = f.
Proof.
  intros HS Hlen.
  destruct (transmit_stream_trace SIZE char_signed HS inp st Hlen)
    as (st' & es & n & p & f & Hrun & Ho & Hn & Hp & Hf & Hend & Hw & _ & Hr & _).
  eexists st', _, f. split; [done|]. split; [exact Ho|].
  split.
  { eexists (_ :: _ :: es ++ [_]). cbn [app]. do 2 f_equal.
    rewrite <- app_assoc. reflexivity. }
  split; [lia|].
  rewrite reuses_framed, writes_framed by done.
  split; [done|].
  rewrite Hw, failed_sends_count.
  assert (Hle : forall s m, (successes (tx_ok inp) s m <= m)%nat).
  { intros s m. revert s. induction m as [|m IH]; intros s; simpl; [lia|].
    specialize (IH (S s)). destruct (tx_ok inp s); lia. }
  specialize (Hle 0%nat n). lia.
Qed.

Lemma stream_failures_accounted_witness :
  exists st' es f,
    transmit_stream 32 false (TickInput (fun k => Nat.even k) false (fun _ => 0) (-1) 0 9)
      (State true (replicate 33 0) 0 false []) = Some st'
    /\ out st' = [] ++ es
    /\ 0 <= f <= 100
    /\ Z.of_nat (reuses es) = f.
Proof.
  destruct (stream_failures_accounted 32 false
              (TickInput (fun k => Nat.even k) false (fun _ => 0) (-1) 0 9)
              (State true (replicate 33 0) 0 false []) ltac:(lia) eq_refl)
    as (st' & es & f & Hrun & Ho & _ & Hf & Hr & _).
  exists st', es, f. auto.
Defined.

(** X7. A cycle that gives up (100 [reUseTX] calls) says so once the loop is
    left, naming the marker of the payload it could not send: the one of
    position p, where p payloads had been sent. *)
Theorem abort_names_unsent_payload (SIZE : Z) (char_signed : bool)
    (inp : tick_input) (st : state) :
  1 <= SIZE <= 32 -> length (buffer st) = Z.to_nat (SIZE + 1) ->
  exists st' es,
    transmit_stream SIZE char_signed inp st = Some st'
    /\ out st' = out st ++ es
    /\ (reuses es = 100%nat ->
        exists pre p,
          p = Z.of_nat (length (sent es)) /\ 0 <= p < SIZE
          /\ es = pre ++ [printf "Too many failures detected. Aborting at payload %c"
                                 [ArgChar (if p <? 26 then 65 + p else 71 + p)];
                          to_us_since_boot (t_end inp);
                          printf "Time to transmit = %d us with %d failures detected"
                                 [ArgInt (uint64_t (t_end inp - t_start inp)); ArgInt 100];
                          sleep_ms 500]).
Proof.
  intros HS Hlen.
  destruct (transmit_stream_trace SIZE char_signed HS inp st Hlen)
    as (st' & es & n & p & f & Hrun & Ho & Hn & Hp & Hf & Hend & Hw & Hsent & Hr & Hlast).
  eexists st', _. split; [done|]. split; [exact Ho|].
  rewrite reuses_framed, sent_framed by done. intros H100.
  assert (f = 100) as -> by lia.
  destruct Hend as [[_ ?]|[_ Hp']]; [lia|].
  apply last_Some in Hlast as [pre ->]; [|done].
  exists (radio_flush_tx :: to_us_since_boot (t_start inp) :: pre), p.
  split; [by rewrite Hsent, length_fmap, length_seqZ; lia|]. split; [done|].
  rewrite to_char_small by (destruct (p <? 26); lia).
  replace (p + (if p <? 26 then 65 else 71))
    with (if p <? 26 then 65 + p else 71 + p) by (destruct (p <? 26); lia).
  cbn [app]. by rewrite <- app_assoc.
Qed.

Lemma abort_names_unsent_payload_witness :
  exists st' es,
    transmit_stream 32 false (TickInput (fun k => (k <? 3)%nat) false (fun _ => 0) (-1) 0 9)
      (State true (replicate 33 0) 0 false []) = Some st'
    /\ out st' = [] ++ es.
Proof.
  destruct (abort_names_unsent_payload 32 false
              (TickInput (fun k => (k <? 3)%nat) false (fun _ => 0) (-1) 0 9)
              (State true (replicate 33 0) 0 false []) ltac:(lia) eq_refl)
    as (st' & es & Hrun & Ho & _).
  exists st', es. auto.
Defined.

(** The cycle of that run: three payloads go out, the fourth ('D') fails
    100 times. *)
Example abort_after_three :
  (fun st' => (sent (out st'), reuses (out st'), drop 205 (out st')))
    <$> transmit_stream 32 false
          (TickInput (fun k => (k <? 3)%nat) false (fun _ => 0) (-1) 0 9)
          (State true (replicate 33 0) 0 false [])
  = Some ((fun q => take 32 (makePayload 32 false q (replicate 33 0))) <$> [0; 1; 2],
          100%nat,
          [printf "Too many failures detected. Aborting at payload %c" [ArgChar 68];
           to_us_since_boot 9;
           printf "Time to transmit = %d us with %d failures detected"
                  [ArgInt 9; ArgInt 100];
           sleep_ms 500]).
Proof. vm_compute. reflexivity. Qed.

(** ** Invariants of the running program *)

Section Coherence.

Variable SIZE : Z.
Variable char_signed : bool.
Variable PICO_ERROR_TIMEOUT : Z.
Hypothesis SIZE_range : 1 <= SIZE <= 32.

Lemma change_role_coherent (r : Z) (st : state) :
  coherent st -> coherent (change_role char_signed PICO_ERROR_TIMEOUT r st).
Proof.
  intros (Hl & Hc & Hr). unfold change_role. cbv zeta.
  assert (Hsame : coherent (emit (getchar_timeout_us 500 r) st)) by done.
  destruct (to_char char_signed r =? PICO_ERROR_TIMEOUT); cbn [negb]; [done|].
  cbn [role emit]. destruct (role st) eqn:Hrole; cbn [negb];
    rewrite andb_false_r, andb_true_r;
    (destruct (_ || _); [|done]);
    unfold coherent; simpl; (split; [done|]); (split; [intros; congruence|lia]).
Qed.

Lemma loop_coherent (inp : tick_input) (st : state) :
  coherent st ->
  exists st', loop SIZE char_signed PICO_ERROR_TIMEOUT inp st = Some st' /\ coherent st'.
Proof.
  intros (Hl & Hc & Hr). unfold loop. destruct (role st) eqn:Hrole.
  - destruct (transmit_stream_frame SIZE char_signed SIZE_range inp st)
      as (st1 & -> & Hr1 & Hc1 & Hl1 & _).
    eexists. split; [reflexivity|]. apply change_role_coherent.
    unfold coherent. rewrite Hr1, Hc1, Hl1, Hrole. auto.
  - destruct (receive_poll_frame SIZE char_signed inp st) as (Hr1 & Hl1 & _ & Hc1 & _).
    eexists. split; [reflexivity|]. apply change_role_coherent.
    unfold coherent. rewrite Hr1, Hc1, Hl1, Hrole.
    split; [done|]. split; [done|].
    destruct (rx_ready inp); [|done]. unfold uint8_t. apply Z.mod_pos_bound. lia.
Qed.

Lemma run_loop_coherent (inp : nat -> tick_input) (n : nat) :
  forall (k : nat) (st : state),
    coherent st ->
    exists st',
      run_loop SIZE char_signed PICO_ERROR_TIMEOUT n inp k st = Some st' /\ coherent st'.
Proof.
  induction n as [|n IH]; intros k st Hst; simpl; [by exists st|].
  destruct (loop_coherent (inp k) st Hst) as (st1 & -> & Hst1).
  by apply IH.
Qed.

(** A [setup()] that returns true has put the radio in the mode of the role. *)
Lemma setup_coherent (fuel : nat) (si : setup_input) (st : state) :
  (setup SIZE char_signed fuel si st).1 = Some true ->
  listening (setup SIZE char_signed fuel si st).2 = negb (role st).
Proof.
  unfold setup. cbv zeta.
  pose proof (wait_cdc_frame (cdc si) fuel 0
                (set_buffer (<[Z.to_nat SIZE := 0]> (buffer st)) st)) as Hw.
  cbv zeta in Hw.
  destruct (wait_cdc fuel (cdc si) 0 _) as [connected st0].
  cbn [fst snd role buffer counter listening out set_buffer] in Hw.
  destruct Hw as (Hr & _).
  destruct connected; cbn [negb fst snd]; [|discriminate].
  destruct (begin_ok si); cbn [negb fst snd]; [|discriminate].
  intros _. cbn [role emit]. rewrite Hr. by destruct (role st).
Qed.

(** The state in which [main()] is seen: the status tells whether the tick
    loop was entered, and the state is coherent once it was. *)
Lemma main_coherent (fuel : nat) (si : setup_input) (inp : nat -> tick_input) :
  exists s st,
    main SIZE char_signed PICO_ERROR_TIMEOUT fuel si inp = Some (s, st)
    /\ (s = Looping -> coherent st)
    /\ (role st = true -> counter st = 0) /\ 0 <= counter st < 256
    /\ (begin_ok si = true -> s = Waiting \/ s = Looping)
    /\ (begin_ok si = true -> forall k, cdc si k = true -> (k < fuel)%nat -> s = Looping).
Proof.
  unfold main. cbv zeta.
  pose proof (setup_frame SIZE char_signed fuel si (emit stdio_init_all (boot SIZE)))
    as Hf.
  pose proof (setup_coherent fuel si (emit stdio_init_all (boot SIZE))) as Hl.
  assert (Hconn : begin_ok si = true -> forall k, cdc si k = true -> (k < fuel)%nat ->
            (setup SIZE char_signed fuel si (emit stdio_init_all (boot SIZE))).1
            = Some true).
  { intros Hb k Hk Hfuel. unfold setup. cbv zeta.
    pose proof (wait_cdc_connects (cdc si) fuel 0 k
                  (set_buffer (<[Z.to_nat SIZE := 0]>
                                 (buffer (emit stdio_init_all (boot SIZE))))
                              (emit stdio_init_all (boot SIZE))) Hk Hfuel) as Hc.
    destruct (wait_cdc fuel (cdc si) 0 _) as [connected st0]. cbn [fst] in Hc.
    subst connected. by rewrite Hb. }
  assert (Hret : begin_ok si = true ->
            (setup SIZE char_signed fuel si (emit stdio_init_all (boot SIZE))).1
            <> Some false).
  { intros Hb. unfold setup. cbv zeta.
    destruct (wait_cdc fuel (cdc si) 0 _) as [connected st0].
    destruct connected; cbn [negb fst]; [|done]. by rewrite Hb. }
  cbv zeta in Hf.
  destruct (setup SIZE char_signed fuel si _) as [r st]. cbn [fst snd] in *.
  destruct Hf as (Hr & Hc & _).
  cbn [role counter emit boot] in Hr, Hc.
  destruct r as [[|]|].
  - assert (Hst : coherent st).
    { unfold coherent. rewrite Hr, Hc, Hl by done. repeat split; done || lia. }
    destruct (run_loop_coherent inp fuel 0 st Hst) as (st' & -> & Hst').
    exists Looping, st'. split; [done|]. split; [done|].
    destruct Hst' as (_ & ? & ?). do 2 (split; [done|]). auto.
  - exists (Returned 0), st. split; [done|]. split; [done|].
    rewrite Hr, Hc. split; [done|]. split; [lia|].
    split; [intros Hb; by destruct (Hret Hb)|].
    intros Hb k Hk Hfuel. by specialize (Hconn Hb k Hk Hfuel).
  - exists Waiting, st. split; [done|]. split; [done|].
    rewrite Hr, Hc. split; [done|]. split; [lia|].
    split; [auto|]. intros Hb k Hk Hfuel. by specialize (Hconn Hb k Hk Hfuel).
Qed.

End Coherence.

(** X8. Once the tick loop runs, the transceiver listens exactly when the
    node is a receiver: [setup()] starts listening for the initial receive
    role, and every role change switches the transceiver's mode with it. *)
Theorem listening_follows_role (SIZE : Z) (char_signed : bool)
    (PICO_ERROR_TIMEOUT : Z) (fuel : nat) (si : setup_input)
    (inp : nat -> tick_input) (st : state) :
  1 <= SIZE <= 32 ->
  main SIZE char_signed PICO_ERROR_TIMEOUT fuel si inp = Some (Looping, st) ->
  listening st = negb (role st).
Proof.
  intros HS Hmain.
  destruct (main_coherent SIZE char_signed PICO_ERROR_TIMEOUT HS fuel si inp)
    as (s & st0 & Hmain0 & Hco & _).
  rewrite Hmain in Hmain0. injection Hmain0 as <- <-.
  by destruct (Hco eq_refl).
Qed.

Lemma listening_follows_role_witness :
  exists st,
    main 32 false (-1) 2 (SetupInput (fun _ => true) true 48)
      (fun k => TickInput (fun _ => true) false (fun _ => 0) (if k is O then 116 else -1) 0 0)
    = Some (Looping, st)
    /\ listening st = negb (role st).
Proof.
  eexists. split; [vm_compute; reflexivity|].
  eapply (listening_follows_role 32 false (-1) 2
            (SetupInput (fun _ => true) true 48)
            (fun k => TickInput (fun _ => true) false (fun _ => 0)
                        (if k is O then 116 else -1) 0 0));
    [lia|vm_compute; reflexivity].
Defined.

(** X9. The counter always fits in 8 bits, and it is 0 whenever the node is
    a transmitter: a switch to the transmit role resets it and a transmit
    cycle never touches it. *)
Theorem transmitter_counter_is_zero (SIZE : Z) (char_signed : bool)
    (PICO_ERROR_TIMEOUT : Z) (fuel : nat) (si : setup_input)
    (inp : nat -> tick_input) (s : status) (st : state) :
  1 <= SIZE <= 32 ->
  main SIZE char_signed PICO_ERROR_TIMEOUT fuel si inp = Some (s, st) ->
  (role st = true -> counter st = 0) /\ 0 <= counter st < 256.
Proof.
  intros HS Hmain.
  destruct (main_coherent SIZE char_signed PICO_ERROR_TIMEOUT HS fuel si inp)
    as (s0 & st0 & Hmain0 & _ & Hzero & Hrange & _).
  rewrite Hmain in Hmain0. by injection Hmain0 as <- <-.
Qed.

Lemma transmitter_counter_is_zero_witness :
  exists st,
    main 32 false (-1) 3 (SetupInput (fun _ => true) true 48)
      (fun k => TickInput (fun _ => true) true (fun _ => 65)
                  (if k is 2%nat then 116 else -1) 0 0)
    = Some (Looping, st)
    /\ role st = true /\ counter st = 0.
Proof.
  eexists. split; [vm_compute; reflexivity|]. split; [reflexivity|].
  eapply (transmitter_counter_is_zero 32 false (-1) 3
            (SetupInput (fun _ => true) true 48)
            (fun k => TickInput (fun _ => true) true (fun _ => 65)
                        (if k is 2%nat then 116 else -1) 0 0));
    [lia|vm_compute; reflexivity|reflexivity].
Defined.

(** ** The terminal *)

Lemma keys_read_app (es1 es2 : list event) :
  keys_read (es1 ++ es2) = keys_read es1 ++ keys_read es2.
Proof. apply omap_app. Qed.

Lemma keys_read_none (es : list event) :
  Forall (fun e => is_sample e = false) es -> keys_read es = [].
Proof.
  induction 1 as [|e es He _ IH]; [done|]. destruct e; try done.
Qed.

Lemma tick_event_not_sample (e : event) : is_tick_event e = false -> is_sample e = false.
Proof. by destruct e. Qed.

Section Terminal.

Variable SIZE : Z.
Variable char_signed : bool.
Variable PICO_ERROR_TIMEOUT : Z.
Hypothesis SIZE_range : 1 <= SIZE <= 32.

Lemma loop_reads_one_key (inp : tick_input) (st : state) :
  exists st' es,
    loop SIZE char_signed PICO_ERROR_TIMEOUT inp st = Some st'
    /\ out st' = out st ++ es
    /\ keys_read es = [key inp].
Proof.
  destruct (role_work_frame SIZE char_signed SIZE_range inp st)
    as (st1 & work & Hwork & _ & _ & Ho & _ & Hns).
  destruct (change_role_frame char_signed PICO_ERROR_TIMEOUT (key inp) st1)
    as (_ & cmd & Hcmd & Hnt & _).
  eexists _, (work ++ getchar_timeout_us 500 (key inp) :: cmd).
  split; [unfold loop; by rewrite Hwork|].
  split; [cbn [mbind option_bind]; by rewrite Hcmd, Ho, <- app_assoc|].
  rewrite keys_read_app, (keys_read_none work Hns).
  change (keys_read (getchar_timeout_us 500 (key inp) :: cmd))
    with (key inp :: keys_read cmd).
  rewrite (keys_read_none cmd); [done|].
  eapply Forall_impl; [exact Hnt|]. apply tick_event_not_sample.
Qed.

End Terminal.

(** X11. The ticks read the terminal once each and in order: over [n] ticks
    started at tick [k], whatever the roles and whatever the radio does, the
    results of the sampling calls are the keys of the ticks k, ..., k + n - 1;
    no key is read twice and none is skipped. *)
Theorem keys_sampled_once_per_tick (SIZE : Z) (char_signed : bool)
    (PICO_ERROR_TIMEOUT : Z) (inp : nat -> tick_input) (n k : nat) (st : state) :
  1 <= SIZE <= 32 ->
  exists st' es,
    run_loop SIZE char_signed PICO_ERROR_TIMEOUT n inp k st = Some st'
    /\ out st' = out st ++ es
    /\ keys_read es = (fun j => key (inp j)) <$> seq k n.
Proof.
  intros HS. revert k st. induction n as [|n IH]; intros k st.
  - exists st, []. simpl. by rewrite app_nil_r.
  - destruct (loop_reads_one_key SIZE char_signed PICO_ERROR_TIMEOUT HS (inp k) st)
      as (st1 & es1 & Hloop & Ho1 & Hk1).
    destruct (IH (S k) st1) as (st' & es & Hrun & Ho & Hk).
    exists st', (es1 ++ es). simpl. rewrite Hloop. cbn [mbind option_bind].
    split; [done|]. split; [by rewrite Ho, Ho1, app_assoc|].
    by rewrite keys_read_app, Hk1, Hk.
Qed.

Lemma keys_sampled_once_per_tick_witness :
  exists st' es,
    run_loop 32 false (-1) 3
      (fun k => TickInput (fun _ => true) false (fun _ => 0) (Z.of_nat k + 100) 0 0)
      0 (State false (replicate 33 0) 0 true []) = Some st'
    /\ out st' = [] ++ es
    /\ keys_read es = [100; 101; 102].
Proof.
  exact (keys_sampled_once_per_tick 32 false (-1)
           (fun k => TickInput (fun _ => true) false (fun _ => 0) (Z.of_nat k + 100) 0 0)
           3 0 (State false (replicate 33 0) 0 true []) ltac:(lia)).
Defined.

(** X12. A key that is none of 'T', 't', 'R', 'r', and a time-out whose
    error code fits a signed char, are ignored: after the call that sampled
    the terminal the role, the counter, the buffer and the transceiver's mode
    are as before and no further call is made. *)
Theorem unknown_key_is_ignored (char_signed : bool) (PICO_ERROR_TIMEOUT : Z)
    (r : Z) (st : state) :
  (to_char char_signed r <> 84 /\ to_char char_signed r <> 116
   /\ to_char char_signed r <> 82 /\ to_char char_signed r <> 114)
  \/ (r = PICO_ERROR_TIMEOUT /\ -128 <= PICO_ERROR_TIMEOUT < 0) ->
  change_role char_signed PICO_ERROR_TIMEOUT r st
  = State (role st) (buffer st) (counter st) (listening st)
          (out st ++ [getchar_timeout_us 500 r]).
Proof.
  intros [(HT & Ht & HR & Hr) | [-> HP]].
  - by rewrite change_role_other.
  - by rewrite change_role_timeout.
Qed.

Lemma unknown_key_is_ignored_witness :
  change_role false (-1) 120 (State true (replicate 33 0) 0 false [])
  = State true (replicate 33 0) 0 false [getchar_timeout_us 500 120]
  /\ change_role true (-1) (-1) (State false (replicate 33 0) 4 true [])
     = State false (replicate 33 0) 4 true [getchar_timeout_us 500 (-1)].
Proof.
  split.
  - apply (unknown_key_is_ignored false (-1) 120 (State true (replicate 33 0) 0 false [])).
    left. unfold to_char. cbn. repeat split; discriminate.
  - apply (unknown_key_is_ignored true (-1) (-1) (State false (replicate 33 0) 4 true [])).
    right. split; [reflexivity|lia].
Defined.



(** ** The addresses of the pair *)

Lemma writing_pipes_app (es1 es2 : list event) :
  writing_pipes (es1 ++ es2) = writing_pipes es1 ++ writing_pipes es2.
Proof. apply omap_app. Qed.

Lemma reading_pipes_app (es1 es2 : list event) :
  reading_pipes (es1 ++ es2) = reading_pipes es1 ++ reading_pipes es2.
Proof. apply omap_app. Qed.

Lemma cdc_wait_opens_no_pipe (es : list event) :
  Forall (fun e => is_cdc_wait e = true) es ->
  writing_pipes es = [] /\ reading_pipes es = [].
Proof.
  induction 1 as [|e es He _ [IHw IHr]]; [done|]. destruct e; try done.
Qed.

Lemma wait_cdc_calls (connected : nat -> bool) (fuel : nat) :
  forall (k : nat) (st : state),
    exists es, out (wait_cdc fuel connected k st).2 = out st ++ es
               /\ Forall (fun e => is_cdc_wait e = true) es.
Proof.
  induction fuel as [|fuel IH]; intros k st; simpl.
  - exists []. by rewrite app_nil_r.
  - destruct (connected k); simpl.
    + eexists. split; [reflexivity|]. by repeat constructor.
    + destruct (IH (S k) (emit_all [tud_cdc_connected false; sleep_ms 10] st))
        as (es & Ho & Hes).
      rewrite Ho. cbn [out emit_all]. rewrite <- app_assoc.
      eexists. split; [reflexivity|].
      apply Forall_app. split; [by repeat constructor|done].
Qed.

(** The pipes a successful [setup()] opens: node 1 writes to "2Node" and
    reads "1Node", any other node number writes to "1Node" and reads
    "2Node". *)
Lemma setup_pipes (SIZE : Z) (char_signed : bool) (fuel : nat)
    (si : setup_input) (st : state) :
  (setup SIZE char_signed fuel si st).1 = Some true ->
  exists es,
    out (setup SIZE char_signed fuel si st).2 = out st ++ es
    /\ writing_pipes es
       = [if to_char char_signed (first_char si) =? 49 then "2Node" else "1Node"]
    /\ reading_pipes es
       = [(1, if to_char char_signed (first_char si) =? 49 then "1Node" else "2Node")].
Proof.
  unfold setup. cbv zeta.
  destruct (wait_cdc_calls (cdc si) fuel 0
              (set_buffer (<[Z.to_nat SIZE := 0]> (buffer st)) st))
    as (es & Ho & Hes).
  destruct (wait_cdc fuel (cdc si) 0 _) as [connected st0].
  cbn [snd out set_buffer] in Ho.
  destruct (cdc_wait_opens_no_pipe es Hes) as [Hw Hr].
  destruct connected; cbn [negb fst snd]; [|discriminate].
  destruct (begin_ok si); cbn [negb fst snd]; [|discriminate].
  intros _. cbn [role emit].
  destruct (to_char char_signed (first_char si) =? 49); cbn [negb];
    destruct (role st0);
    cbn [out emit stopListening startListening set_listening];
    rewrite Ho, <- !app_assoc; eexists; (split; [reflexivity|]);
    rewrite writing_pipes_app, reading_pipes_app, Hw, Hr; done.
Qed.

(** X14. Two nodes are wired to each other exactly when their radio numbers
    differ.  A node that got '1' writes to "2Node" and reads "1Node" on pipe
    1; with any other answer (the default) it writes to "1Node" and reads
    "2Node" on pipe 1.  So with different numbers each node writes to the
    address the other reads; with the same number both write to one address,
    which neither reads. *)
Theorem paired_nodes_share_pipes (SIZE : Z) (char_signed : bool)
    (fuel1 fuel2 : nat) (si1 si2 : setup_input) (st1 st2 : state) :
  (setup SIZE char_signed fuel1 si1 st1).1 = Some true ->
  (setup SIZE char_signed fuel2 si2 st2).1 = Some true ->
  let one1 := to_char char_signed (first_char si1) =? 49 in
  let one2 := to_char char_signed (first_char si2) =? 49 in
  exists es1 es2,
    out (setup SIZE char_signed fuel1 si1 st1).2 = out st1 ++ es1
    /\ out (setup SIZE char_signed fuel2 si2 st2).2 = out st2 ++ es2
    /\ writing_pipes es1 = [if one1 then "2Node" else "1Node"]
    /\ reading_pipes es1 = [(1, if one1 then "1Node" else "2Node")]
    /\ writing_pipes es2 = [if one2 then "2Node" else "1Node"]
    /\ reading_pipes es2 = [(1, if one2 then "1Node" else "2Node")]
    /\ (one1 <> one2 ->
        writing_pipes es1 = (reading_pipes es2).*2
        /\ writing_pipes es2 = (reading_pipes es1).*2)
    /\ (one1 = one2 ->
        writing_pipes es1 = writing_pipes es2
        /\ reading_pipes es1 = reading_pipes es2
        /\ writing_pipes es1 <> (reading_pipes es2).*2
        /\ writing_pipes es2 <> (reading_pipes es1).*2).
Proof.
  intros H1 H2 one1 one2.
  destruct (setup_pipes SIZE char_signed fuel1 si1 st1 H1) as (es1 & Ho1 & Hw1 & Hr1).
  destruct (setup_pipes SIZE char_signed fuel2 si2 st2 H2) as (es2 & Ho2 & Hw2 & Hr2).
  fold one1 in Hw1, Hr1. fold one2 in Hw2, Hr2.
  exists es1, es2. do 6 (split; [done|]).
  rewrite Hw1, Hr1, Hw2, Hr2.
  destruct one1, one2; split; intros Hne; try done; repeat split; done.
Qed.

Lemma paired_nodes_share_pipes_witness :
  exists es1 es2,
    out (setup 32 false 1 (SetupInput (fun _ => true) true 48) (boot 32)).2 = [] ++ es1
    /\ out (setup 32 false 1 (SetupInput (fun _ => true) true 49) (boot 32)).2 = [] ++ es2
    /\ writing_pipes es1 = ["1Node"] /\ reading_pipes es1 = [(1, "2Node")]
    /\ writing_pipes es2 = ["2Node"] /\ reading_pipes es2 = [(1, "1Node")].
Proof.
  destruct (paired_nodes_share_pipes 32 false 1 1
              (SetupInput (fun _ => true) true 48) (SetupInput (fun _ => true) true 49)
              (boot 32) (boot 32) eq_refl eq_refl)
    as (es1 & es2 & Ho1 & Ho2 & Hw1 & Hr1 & Hw2 & Hr2 & _).
  exists es1, es2. auto 10.
Defined.

(** ** From one node to the other *)

(** X15. What a transmitter builds is what a receiver shows.  When the
    payload at the head of the receiver's FIFO holds the SIZE bytes that
    [makePayload] built for a position below SIZE, the receiver's buffer
    after the read is the transmitter's buffer, cell by cell, and the string
    it prints is those SIZE bytes. *)
Theorem received_buffer_equals_sent (SIZE : Z) (char_signed : bool)
    (i : Z) (txbuf : list Z) (inp : tick_input) (st : state) :
  1 <= SIZE <= 32 -> 0 <= i < SIZE ->
  terminated SIZE txbuf -> terminated SIZE (buffer st) ->
  rx_ready inp = true ->
  (forall k, (k < Z.to_nat SIZE)%nat ->
     makePayload SIZE char_signed i txbuf !! k = Some (rx_payload inp k)) ->
  buffer (receive_poll SIZE char_signed inp st) = makePayload SIZE char_signed i txbuf
  /\ out (receive_poll SIZE char_signed inp st)
     = out st ++
       [radio_available true;
        radio_read (take (Z.to_nat SIZE) (makePayload SIZE char_signed i txbuf)) SIZE;
        printf "Received: %s - #d"
               [ArgStr (take (Z.to_nat SIZE) (makePayload SIZE char_signed i txbuf));
                ArgInt (counter st)]].
Proof.
  intros HS Hi [Hltx Hntx] [Hlrx Hnrx] Hready Hpay.
  assert (Hbuf : RF24_read char_signed (rx_payload inp) SIZE (buffer st)
                 = makePayload SIZE char_signed i txbuf).
  { apply list_eq. intros k.
    destruct (decide (k < Z.to_nat SIZE)%nat) as [Hk|Hk].
    - rewrite RF24_read_payload by done. rewrite (Hpay k Hk). f_equal.
      apply to_char_small.
      pose proof (Hpay k Hk) as Hcell. rewrite makePayload_cells in Hcell by done.
      destruct k as [|k'].
      + injection Hcell as <-.
        rewrite to_char_small by (destruct (i <? 26); lia).
        destruct (i <? 26); lia.
      + rewrite decide_True in Hcell by done. injection Hcell as <-.
        pose proof (chevron_range SIZE char_signed i (Z.of_nat k')). lia.
    - rewrite RF24_read_beyond by (done || lia).
      rewrite makePayload_beyond by lia.
      destruct (decide (k = Z.to_nat SIZE)) as [->|Hne]; [congruence|].
      rewrite !(proj2 (lookup_ge_None _ _)) by lia. done. }
  destruct (receive_poll_frame SIZE char_signed inp st) as (_ & _ & Hb & _ & Ho).
  rewrite Hready, Hbuf in Hb, Ho. split; [done|]. rewrite Ho.
  rewrite (c_str_full (Z.to_nat SIZE) (makePayload SIZE char_signed i txbuf)); [done| |].
  - intros k c Hk. apply (makePayload_no_nul SIZE char_signed HS); done.
  - rewrite makePayload_beyond by lia. done.
Qed.

Lemma received_buffer_equals_sent_witness :
  buffer (receive_poll 32 false
            (TickInput (fun _ => true) true
               (fun k => default 0 (makePayload 32 false 9 (replicate 33 0) !! k)) (-1) 0 0)
            (State false (replicate 33 0) 0 true []))
  = makePayload 32 false 9 (replicate 33 0).
Proof.
  apply (received_buffer_equals_sent 32 false 9 (replicate 33 0)
           (TickInput (fun _ => true) true
              (fun k => default 0 (makePayload 32 false 9 (replicate 33 0) !! k)) (-1) 0 0)
           (State false (replicate 33 0) 0 true [])).
  - lia.
  - lia.
  - split; reflexivity.
  - split; reflexivity.
  - reflexivity.
  - intros k Hk. cbn [rx_payload].
    destruct (makePayload 32 false 9 (replicate 33 0) !! k) eqn:Hcell; [done|].
    apply lookup_ge_None in Hcell. rewrite makePayload_length, length_replicate in Hcell.
    simpl in Hk. lia.
Defined.

(** ** The calls of a tick, by role *)

Lemma stream_event_not_rx (e : event) : is_stream_event e = true -> is_rx_call e = false.
Proof. by destruct e. Qed.

(** The calls that follow the sampling of the terminal: a message and the
    switch of the transceiver's mode, or nothing. *)
Lemma change_role_calls (char_signed : bool) (PICO_ERROR_TIMEOUT : Z)
    (r : Z) (st : state) :
  exists cmd,
    out (change_role char_signed PICO_ERROR_TIMEOUT r st)
    = out st ++ getchar_timeout_us 500 r :: cmd
    /\ Forall (fun e => is_tx_call e = false /\ is_rx_call e = false
                        /\ is_sleep e = false) cmd.
Proof.
  unfold change_role. cbv zeta.
  destruct (negb _); [destruct (_ && _); [|destruct (_ && _)]|];
    cbn [buffer out emit set_counter set_role set_listening stopListening startListening];
    rewrite <- ?app_assoc; eexists; (split; [reflexivity|]); repeat constructor.
Qed.

(** X16. The calls of a tick fit the role it starts in.  A transmitter's
    tick never asks the radio for a received payload; a receiver's tick
    never flushes, sends or re-arms, and never sleeps: its only wait is the
    sampling of the terminal. *)
Theorem tick_calls_match_role (SIZE : Z) (char_signed : bool)
    (PICO_ERROR_TIMEOUT : Z) (inp : tick_input) (st : state) :
  1 <= SIZE <= 32 ->
  exists st' es,
    loop SIZE char_signed PICO_ERROR_TIMEOUT inp st = Some st'
    /\ out st' = out st ++ es
    /\ (role st = true -> Forall (fun e => is_rx_call e = false) es)
    /\ (role st = false ->
        Forall (fun e => is_tx_call e = false /\ is_sleep e = false) es).
Proof.
  intros HS. unfold loop. destruct (role st) eqn:Hrole.
  - destruct (transmit_stream_frame SIZE char_signed HS inp st)
      as (st1 & -> & _ & _ & _ & _ & _ & es & Ho & Hes).
    destruct (change_role_calls char_signed PICO_ERROR_TIMEOUT (key inp) st1)
      as (cmd & Hcmd & Hq).
    eexists _, _. split; [reflexivity|]. cbn [mbind option_bind].
    rewrite Hcmd, Ho, <- app_assoc. split; [reflexivity|].
    split; [|discriminate]. intros _.
    constructor; [done|]. apply Forall_app. split.
    + eapply Forall_impl; [exact Hes|]. apply stream_event_not_rx.
    + constructor; [done|]. eapply Forall_impl; [exact Hq|]. by intros e (_ & ? & _).
  - destruct (receive_poll_frame SIZE char_signed inp st) as (_ & _ & _ & _ & Ho).
    destruct (change_role_calls char_signed PICO_ERROR_TIMEOUT (key inp)
                (receive_poll SIZE char_signed inp st)) as (cmd & Hcmd & Hq).
    eexists _, _. split; [reflexivity|]. cbn [mbind option_bind].
    rewrite Hcmd, Ho, <- app_assoc. split; [reflexivity|].
    split; [discriminate|]. intros _.
    constructor; [done|]. apply Forall_app. split.
    + destruct (rx_ready inp); repeat constructor.
    + constructor; [done|]. eapply Forall_impl; [exact Hq|]. by intros e (? & _ & ?).
Qed.

Lemma tick_calls_match_role_witness :
  exists st' es,
    loop 32 false (-1) (TickInput (fun _ => true) true (fun _ => 65) 116 0 0)
      (State false (replicate 33 0) 0 true []) = Some st'
    /\ out st' = [] ++ es
    /\ Forall (fun e => is_tx_call e = false /\ is_sleep e = false) es.
Proof.
  destruct (tick_calls_match_role 32 false (-1)
              (TickInput (fun _ => true) true (fun _ => 65) 116 0 0)
              (State false (replicate 33 0) 0 true []) ltac:(lia))
    as (st' & es & Hloop & Ho & _ & Hrx).
  exists st', es. auto.
Defined.

(** ** Counting receptions *)

Section Arrivals.

Variable SIZE : Z.
Variable char_signed : bool.
Variable PICO_ERROR_TIMEOUT : Z.

Lemma reads_app (es1 es2 : list event) : reads (es1 ++ es2) = (reads es1 + reads es2)%nat.
Proof. unfold reads. by rewrite omap_app, length_app. Qed.

(** One tick of a receiver that is not switched. *)
Lemma loop_receives (inp : tick_input) (st : state) :
  role st = false ->
  to_char char_signed (key inp) <> 84 -> to_char char_signed (key inp) <> 116 ->
  exists st' es,
    loop SIZE char_signed PICO_ERROR_TIMEOUT inp st = Some st'
    /\ role st' = false
    /\ out st' = out st ++ es
    /\ reads es = (if rx_ready inp then 1 else 0)%nat
    /\ counter st' = (if rx_ready inp then uint8_t (counter st + 1) else counter st).
Proof.
  intros Hrole HT Ht. unfold loop. rewrite Hrole.
  destruct (receive_poll_frame SIZE char_signed inp st) as (Hr & _ & _ & Hc & Ho).
  destruct (change_role_stays_receiver char_signed PICO_ERROR_TIMEOUT (key inp)
              (receive_poll SIZE char_signed inp st)) as [Hr' Hc']; [congruence|done..|].
  assert (Hsame : change_role char_signed PICO_ERROR_TIMEOUT (key inp)
                    (receive_poll SIZE char_signed inp st)
                  = emit (getchar_timeout_us 500 (key inp))
                      (receive_poll SIZE char_signed inp st)).
  { unfold change_role. cbv zeta.
    destruct (Z.eqb_spec (to_char char_signed (key inp)) 84); [done|].
    destruct (Z.eqb_spec (to_char char_signed (key inp)) 116); [done|].
    cbn [role emit orb andb]. rewrite Hr, Hrole, andb_false_r.
    by destruct (negb _). }
  eexists _, _. split; [reflexivity|]. cbn [mbind option_bind].
  split; [done|]. rewrite Hsame. cbn [out emit counter]. rewrite Ho, <- app_assoc.
  split; [reflexivity|]. split; [|done].
  rewrite reads_app. by destruct (rx_ready inp).
Qed.

End Arrivals.

(** X17. While the node stays a receiver the counter counts the payloads
    read, modulo 256: over [n] ticks in which neither 'T' nor 't' is read,
    the number of [radio.read()] calls is the number of ticks that found a
    payload waiting, and the counter has advanced by that number modulo 256;
    a tick with nothing waiting reads nothing and counts nothing. *)
Theorem counter_counts_reads (SIZE : Z) (char_signed : bool)
    (PICO_ERROR_TIMEOUT : Z) (inp : nat -> tick_input) (n k : nat) (st : state) :
  role st = false -> 0 <= counter st < 256 ->
  (forall j, (j < n)%nat ->
     to_char char_signed (key (inp (k + j)%nat)) <> 84
     /\ to_char char_signed (key (inp (k + j)%nat)) <> 116) ->
  exists st' es,
    run_loop SIZE char_signed PICO_ERROR_TIMEOUT n inp k st = Some st'
    /\ role st' = false
    /\ out st' = out st ++ es
    /\ reads es = arrivals inp k n
    /\ counter st' = (counter st + Z.of_nat (arrivals inp k n)) mod 256.
Proof.
  revert k st. induction n as [|n IH]; intros k st Hrole Hc Hkeys.
  - exists st, []. simpl. rewrite app_nil_r, Z.add_0_r, Z.mod_small by done. done.
  - destruct (Hkeys 0%nat ltac:(lia)) as [HT Ht]. rewrite Nat.add_0_r in HT, Ht.
    destruct (loop_receives SIZE char_signed PICO_ERROR_TIMEOUT (inp k) st Hrole HT Ht)
      as (st1 & es1 & Hloop & Hr1 & Ho1 & Hreads1 & Hc1).
    destruct (IH (S k) st1 Hr1) as (st' & es & Hrun & Hr' & Ho & Hreads & Hc').
    { rewrite Hc1. destruct (rx_ready (inp k)); [|done].
      unfold uint8_t. apply Z.mod_pos_bound. lia. }
    { intros j Hj. replace (S k + j)%nat with (k + S j)%nat by lia. apply Hkeys. lia. }
    exists st', (es1 ++ es). simpl. rewrite Hloop. cbn [mbind option_bind].
    split; [done|]. split; [done|]. split; [by rewrite Ho, Ho1, app_assoc|].
    split; [by rewrite reads_app, Hreads1, Hreads|].
    rewrite Hc', Hc1. destruct (rx_ready (inp k)).
    + unfold uint8_t. rewrite Zplus_mod_idemp_l. f_equal. lia.
    + f_equal.
Qed.

Lemma counter_counts_reads_witness :
  exists st' es,
    run_loop 32 false (-1) 6
      (fun k => TickInput (fun _ => true) (Nat.even k) (fun _ => 65) (-1) 0 0) 0
      (State false (replicate 33 0) 254 true []) = Some st'
    /\ out st' = [] ++ es
    /\ reads es = 3%nat
    /\ counter st' = 1.
Proof.
  destruct (counter_counts_reads 32 false (-1)
              (fun k => TickInput (fun _ => true) (Nat.even k) (fun _ => 65) (-1) 0 0)
              6 0 (State false (replicate 33 0) 254 true []))
    as (st' & es & Hrun & _ & Ho & Hreads & Hc).
  - reflexivity.
  - simpl. lia.
  - intros j Hj. split; vm_compute; discriminate.
  - exists st', es. auto.
Defined.

(** ** A serial port that never connects *)

Lemma wait_cdc_never (connected : nat -> bool) (fuel : nat) :
  forall (k : nat) (st : state),
    (forall j, (j < fuel)%nat -> connected (k + j)%nat = false) ->
    wait_cdc fuel connected k st
    = (false, emit_all (concat (replicate fuel [tud_cdc_connected false; sleep_ms 10])) st).
Proof.
  induction fuel as [|fuel IH]; intros k st Hnever; simpl.
  - unfold emit_all. rewrite app_nil_r. by destruct st.
  - pose proof (Hnever 0%nat ltac:(lia)) as H0. rewrite Nat.add_0_r in H0. rewrite H0.
    rewrite IH.
    + unfold emit_all. cbn [role buffer counter listening out].
      by rewrite <- app_assoc.
    + intros j Hj. replace (S k + j)%nat with (k + S j)%nat by lia. apply Hnever. lia.
Qed.

(** X18. While the serial port is not connected nothing else happens:
    [main()] polls it, sleeping 10 ms after each poll, and as long as every
    poll fails it has made no call to the radio, printed nothing and entered
    no tick; only the terminator of the buffer has been set. *)
Theorem unconnected_port_only_polls (SIZE : Z) (char_signed : bool)
    (PICO_ERROR_TIMEOUT : Z) (fuel : nat) (si : setup_input)
    (inp : nat -> tick_input) :
  1 <= SIZE ->
  (forall k, (k < fuel)%nat -> cdc si k = false) ->
  main SIZE char_signed PICO_ERROR_TIMEOUT fuel si inp
  = Some (Waiting,
          State false (replicate (Z.to_nat (SIZE + 1)) 0) 0 false
            (stdio_init_all
             :: concat (replicate fuel [tud_cdc_connected false; sleep_ms 10]))).
Proof.
  intros HS Hnever. unfold main, setup. cbv zeta.
  rewrite wait_cdc_never by done. cbn [negb].
  do 2 f_equal. unfold emit_all, emit, set_buffer, boot.
  cbn [role buffer counter listening out app]. f_equal.
  apply list_insert_id. apply lookup_replicate_2. lia.
Qed.

Lemma unconnected_port_only_polls_witness :
  main 32 false (-1) 2 (SetupInput (fun _ => false) true 49)
    (fun _ => TickInput (fun _ => true) true (fun _ => 65) 116 0 0)
  = Some (Waiting,
          State false (replicate 33 0) 0 false
            [stdio_init_all;
             tud_cdc_connected false; sleep_ms 10;
             tud_cdc_connected false; sleep_ms 10]).
Proof.
  exact (unconnected_port_only_polls 32 false (-1) 2 (SetupInput (fun _ => false) true 49)
           (fun _ => TickInput (fun _ => true) true (fun _ => 65) 116 0 0)
           ltac:(lia) (fun _ _ => eq_refl)).
Defined.

(** ** To the transmit role and back *)


Section Buffer.

Variable SIZE : Z.
Variable char_signed : bool.
Hypothesis SIZE_range : 1 <= SIZE <= 32.



End Buffer.



(** That run, as the terminal and the radio see its end: the buffer starts
    with 'f', the marker of payload 31, not with the 'A' received. *)
Example switch_and_back_run :
  (fun st2 => (role st2, counter st2, listening st2, buffer st2 !! 0%nat))
    <$> (loop 32 false (-1) (TickInput (fun _ => true) true (fun _ => 65) 116 0 0)
           (State false (replicate 33 0) 41 true [])
         ≫= loop 32 false (-1) (TickInput (fun _ => true) false (fun _ => 0) 82 0 0))
  = Some (false, 0, true, Some 102).
Proof. vm_compute. reflexivity. Qed.

(** ** From start-up into the tick loop *)

Section StartupCalls.

Variable SIZE : Z.
Variable char_signed : bool.
Variable PICO_ERROR_TIMEOUT : Z.
Hypothesis SIZE_range : 1 <= SIZE <= 32.

(** The calls of a [setup()] that returns true: the polls of the serial
    port, then the start of the radio, the prompt and its answer, the
    configuration of the radio and the hint for the user. *)
Lemma setup_calls (fuel : nat) (si : setup_input) (st : state) :
  (setup SIZE char_signed fuel si st).1 = Some true ->
  exists w,
    Forall (fun e => is_cdc_wait e = true) w
    /\ out (setup SIZE char_signed fuel si st).2
       = out st ++ w ++
         [radio_begin true;
          printf "RF24/examples_pico/streamingData" [];
          printf "Which radio is this? Enter '0' or '1'. Defaults to '0' " [];
          getchar (first_char si);
          printf "radioNumber = %d\n"
                 [ArgInt (Z.b2z (to_char char_signed (first_char si) =? 49))];
          radio_setPALevel RF24_PA_LOW;
          radio_setPayloadSize SIZE;
          radio_openWritingPipe
            (if to_char char_signed (first_char si) =? 49 then "2Node" else "1Node");
          radio_openReadingPipe 1
            (if to_char char_signed (first_char si) =? 49 then "1Node" else "2Node");
          (if role st then radio_stopListening else radio_startListening);
          radio_printPrettyDetails;
          printf "*** PRESS 'T' to begin transmitting to the other node\n" []].
Proof.
  unfold setup. cbv zeta.
  destruct (wait_cdc_calls (cdc si) fuel 0
              (set_buffer (<[Z.to_nat SIZE := 0]> (buffer st)) st))
    as (w & Ho & Hw).
  pose proof (wait_cdc_frame (cdc si) fuel 0
                (set_buffer (<[Z.to_nat SIZE := 0]> (buffer st)) st)) as Hf.
  cbv zeta in Hf. destruct Hf as (Hr & _).
  destruct (wait_cdc fuel (cdc si) 0 _) as [connected st0].
  cbn [snd out role set_buffer] in Ho, Hr.
  destruct connected; cbn [negb fst snd]; [|discriminate].
  destruct (begin_ok si); cbn [negb fst snd]; [|discriminate].
  intros _. exists w. split; [done|]. cbn [role emit]. rewrite Hr.
  destruct (to_char char_signed (first_char si) =? 49); cbn [negb];
    destruct (role st);
    cbn [out emit stopListening startListening set_listening];
    rewrite Ho, <- !app_assoc; reflexivity.
Qed.

(** The calls of a [setup()] still waiting for the port. *)
Lemma setup_waiting_calls (fuel : nat) (si : setup_input) (st : state) :
  (setup SIZE char_signed fuel si st).1 = None ->
  exists w,
    Forall (fun e => is_cdc_wait e = true) w
    /\ out (setup SIZE char_signed fuel si st).2 = out st ++ w.
Proof.
  unfold setup. cbv zeta.
  destruct (wait_cdc_calls (cdc si) fuel 0
              (set_buffer (<[Z.to_nat SIZE := 0]> (buffer st)) st))
    as (w & Ho & Hw).
  destruct (wait_cdc fuel (cdc si) 0 _) as [connected st0].
  cbn [snd out set_buffer] in Ho.
  destruct connected; cbn [negb fst snd].
  - by destruct (negb (begin_ok si)).
  - intros _. by exists w.
Qed.

(** With the radio present [setup()] does not return false, and it returns
    true once the port is connected. *)
Lemma setup_radio_present (fuel : nat) (si : setup_input) (st : state) :
  begin_ok si = true ->
  (setup SIZE char_signed fuel si st).1 <> Some false
  /\ (forall k, cdc si k = true -> (k < fuel)%nat ->
        (setup SIZE char_signed fuel si st).1 = Some true).
Proof.
  intros Hb. unfold setup. cbv zeta.
  pose proof (wait_cdc_connects (cdc si) fuel 0) as Hc.
  destruct (wait_cdc fuel (cdc si) 0 _) as [connected st0] eqn:Hw.
  rewrite Hb. destruct connected; cbn [negb fst].
  - split; [done|]. done.
  - split; [done|]. intros k Hk Hfuel.
    specialize (Hc k (set_buffer (<[Z.to_nat SIZE := 0]> (buffer st)) st) Hk Hfuel).
    rewrite Hw in Hc. discriminate Hc.
Qed.

(** Ticks only add calls. *)
Lemma run_loop_extends (inp : nat -> tick_input) (n : nat) :
  forall (k : nat) (st : state),
    exists st' es,
      run_loop SIZE char_signed PICO_ERROR_TIMEOUT n inp k st = Some st'
      /\ out st' = out st ++ es
      /\ length (keys_read es) = n.
Proof.
  induction n as [|n IH]; intros k st.
  - exists st, []. simpl. by rewrite app_nil_r.
  - destruct (loop_reads_one_key SIZE char_signed PICO_ERROR_TIMEOUT SIZE_range
                (inp k) st) as (st1 & es1 & Hloop & Ho1 & Hk1).
    destruct (IH (S k) st1) as (st' & es & Hrun & Ho & Hk).
    exists st', (es1 ++ es). simpl. rewrite Hloop. cbn [mbind option_bind].
    split; [done|]. split; [by rewrite Ho, Ho1, app_assoc|].
    rewrite keys_read_app, length_app, Hk1, Hk. done.
Qed.

End StartupCalls.

(** X10. With the radio present [main()] never returns.  The model takes
    every call that [main()] makes to return (in particular the [getchar()]
    of the prompt returns the user's answer), so a run is seen either while
    it polls the serial port, and then it has made no other call, or in the
    tick loop.  It is in the tick loop once the port has been reported
    connected, and then all of [setup()] lies before the first tick: the
    polls, [radio.begin()], the prompt with its answer, the configuration of
    the radio with [startListening()], and the hint, in this order. *)
Theorem radio_present_never_returns (SIZE : Z) (char_signed : bool)
    (PICO_ERROR_TIMEOUT : Z) (fuel : nat) (si : setup_input)
    (inp : nat -> tick_input) :
  1 <= SIZE <= 32 -> begin_ok si = true ->
  exists s st,
    main SIZE char_signed PICO_ERROR_TIMEOUT fuel si inp = Some (s, st)
    /\ (s = Waiting \/ s = Looping)
    /\ (forall k, cdc si k = true -> (k < fuel)%nat -> s = Looping)
    /\ (s = Waiting ->
        exists w, Forall (fun e => is_cdc_wait e = true) w
                  /\ out st = stdio_init_all :: w)
    /\ (s = Looping ->
        exists w ticks,
          Forall (fun e => is_cdc_wait e = true) w
          /\ length (keys_read ticks) = fuel
          /\ out st = stdio_init_all :: w ++
               [radio_begin true;
                printf "RF24/examples_pico/streamingData" [];
                printf "Which radio is this? Enter '0' or '1'. Defaults to '0' " [];
                getchar (first_char si);
                printf "radioNumber = %d\n"
                       [ArgInt (Z.b2z (to_char char_signed (first_char si) =? 49))];
                radio_setPALevel RF24_PA_LOW;
                radio_setPayloadSize SIZE;
                radio_openWritingPipe
                  (if to_char char_signed (first_char si) =? 49
                   then "2Node" else "1Node");
                radio_openReadingPipe 1
                  (if to_char char_signed (first_char si) =? 49
                   then "1Node" else "2Node");
                radio_startListening;
                radio_printPrettyDetails;
                printf "*** PRESS 'T' to begin transmitting to the other node\n" []]
               ++ ticks).
Proof.
  intros HS Hb. unfold main. cbv zeta.
  pose proof (setup_calls SIZE char_signed fuel si (emit stdio_init_all (boot SIZE)))
    as Hcalls.
  pose proof (setup_waiting_calls SIZE char_signed fuel si
                (emit stdio_init_all (boot SIZE))) as Hwait.
  destruct (setup_radio_present SIZE char_signed fuel si
              (emit stdio_init_all (boot SIZE)) Hb) as [Hnot Hconn].
  destruct (setup SIZE char_signed fuel si _) as [r st]. cbn [fst snd] in *.
  destruct r as [[|]|]; [|done|].
  - destruct (run_loop_extends SIZE char_signed PICO_ERROR_TIMEOUT HS inp fuel 0 st)
      as (st' & ticks & -> & Ho & Hticks).
    destruct (Hcalls eq_refl) as (w & Hw & Hout).
    exists Looping, st'. cbn [mbind option_bind].
    split; [done|]. split; [by right|]. split; [done|]. split; [done|].
    intros _. exists w, ticks. split; [done|]. split; [done|].
    rewrite Ho, Hout. cbn [out emit boot role app]. by rewrite <- !app_assoc.
  - destruct (Hwait eq_refl) as (w & Hw & Hout).
    exists Waiting, st. split; [done|]. split; [by left|].
    split; [intros k Hk Hfuel; by specialize (Hconn k Hk Hfuel)|].
    split; [|done]. intros _. exists w. split; [done|]. by rewrite Hout.
Qed.

Lemma radio_present_never_returns_witness :
  exists st ticks,
    main 32 false (-1) 5 (SetupInput (fun k => (3 <=? k)%nat) true 48)
      (fun _ => TickInput (fun _ => true) false (fun _ => 0) (-1) 0 0)
    = Some (Looping, st)
    /\ length (keys_read ticks) = 5%nat
    /\ exists w, out st = stdio_init_all :: w ++
         [radio_begin true;
          printf "RF24/examples_pico/streamingData" [];
          printf "Which radio is this? Enter '0' or '1'. Defaults to '0' " [];
          getchar 48;
          printf "radioNumber = %d\n" [ArgInt 0];
          radio_setPALevel RF24_PA_LOW;
          radio_setPayloadSize 32;
          radio_openWritingPipe "1Node";
          radio_openReadingPipe 1 "2Node";
          radio_startListening;
          radio_printPrettyDetails;
          printf "*** PRESS 'T' to begin transmitting to the other node\n" []]
         ++ ticks.
Proof.
  destruct (radio_present_never_returns 32 false (-1) 5
              (SetupInput (fun k => (3 <=? k)%nat) true 48)
              (fun _ => TickInput (fun _ => true) false (fun _ => 0) (-1) 0 0))
    as (s & st & Hmain & _ & Hloop & _ & Hcalls).
  - lia.
  - reflexivity.
  - assert (s = Looping) as -> by (apply (Hloop 3%nat); [reflexivity|lia]).
    destruct (Hcalls eq_refl) as (w & ticks & _ & Hticks & Hout).
    exists st, ticks. split; [done|]. split; [done|]. by exists w.
Defined.
